(** * virtual2meet backend: the v1 routes over an explicit store

    A shallow embedding of the route handlers of
    [backend/src/routes/v1/user.ts] (the user and space routers) and of the
    admin router, together with the properties of the space-authoring
    logic: template instantiation, ownership checks, placement bounds and
    the bulk identifier parser.

    Conventions of the embedding.
    - A handler is a function from the store to an outcome and the store
      it leaves behind.  [await client.m.op(..)] is a call of the store
      operation; a query that is built and never awaited is returned as
      pending instead of being applied.
    - [Schema.safeParse(req.body)] is taken as an input of the handler:
      [None] is a failed parse, [Some data] the parsed payload.
    - [req.userId] of a route behind [userMiddleware] is the [userId]
      argument of its handler.
    - Columns of type Int and JSON numbers are integers ([Z]); identifiers
      and other text are [string]s, one [ascii] per code unit. *)

From Stdlib Require Import ZArith Ascii String List Lia.
From stdpp Require Import base list strings pretty option.

Open Scope string_scope.
Open Scope Z_scope.

(** ** JavaScript primitives used by the handlers *)

Module Js.

(** Truthiness of a string [s]: only the empty string is falsy, so [!s]
    is [negb (truthy s)]. *)
Definition truthy (s : string) : bool := negb (String.eqb s "").

(** Truthiness of a string that may be [undefined]. *)
Definition truthy_opt (o : option string) : bool :=
  match o with
  | Some s => truthy s
  | None => false
  end.

(** [a > b] where [b] may be [undefined]: the comparison with
    [undefined] (converted to NaN) is false. *)
Definition gt_undef (a : Z) (b : option Z) : bool :=
  match b with
  | Some b' => b' <? a
  | None => false
  end.

(** Relative index of [String.prototype.slice]: a negative index counts
    from the end, and every index is clamped into [0, len]. *)
Definition clampIndex (len i : Z) : Z :=
  if i <? 0 then Z.max (len + i) 0 else Z.min i len.

(** [s.slice(start, end_)] *)
Definition slice (s : string) (start end_ : Z) : string :=
  let len := Z.of_nat (String.length s) in
  let from := clampIndex len start in
  let to := clampIndex len end_ in
  String.substring (Z.to_nat from) (Z.to_nat (Z.max (to - from) 0)) s.

(** [s.split(sep)] for a separator of one character (the handlers split
    on [","] and on ["x"]).  The result is never empty: the empty
    string splits into one empty piece. *)
Fixpoint split (sep : ascii) (s : string) : list string :=
  match s with
  | EmptyString => [EmptyString]
  | String c s' =>
      if Ascii.eqb c sep then EmptyString :: split sep s'
      else match split sep s' with
           | piece :: pieces => String c piece :: pieces
           | [] => [String c EmptyString]
           end
  end.

(** White space skipped by [parseInt]: the code units of StrWhiteSpaceChar
    that fit one [ascii], TAB, LF, VT, FF, CR, SP and the no-break space
    U+00A0. *)
Definition isWhiteSpace (c : ascii) : bool :=
  let n := nat_of_ascii c in
  ((9 <=? n) && (n <=? 13))%nat || (n =? 32)%nat || (n =? 160)%nat.

Fixpoint trimStart (s : string) : string :=
  match s with
  | EmptyString => EmptyString
  | String c s' => if isWhiteSpace c then trimStart s' else s
  end.

(** Value of a character as a digit, in any radix up to 36. *)
Definition digitValue (c : ascii) : option Z :=
  let n := Z.of_nat (nat_of_ascii c) in
  if (48 <=? n) && (n <=? 57) then Some (n - 48)
  else if (97 <=? n) && (n <=? 122) then Some (n - 97 + 10)
  else if (65 <=? n) && (n <=? 90) then Some (n - 65 + 10)
  else None.

(** The longest prefix of [s] made of digits of radix [R]. *)
Fixpoint leadingDigits (R : Z) (s : string) : list Z :=
  match s with
  | EmptyString => []
  | String c s' =>
      match digitValue c with
      | Some d => if d <? R then d :: leadingDigits R s' else []
      | None => []
      end
  end.

Definition digitsValue (R : Z) (ds : list Z) : Z :=
  fold_left (fun acc d => acc * R + d) ds 0.

(** [parseInt(input)] without a radix argument; [None] is NaN. *)
Definition parseInt (input : string) : option Z :=
  let s := trimStart input in
  let '(sign, s) :=
    match s with
    | String "-"%char r => (-1, r)
    | String "+"%char r => (1, r)
    | _ => (1, s)
    end in
  let '(R, s) :=
    match s with
    | String "0"%char (String "x"%char r) => (16, r)
    | String "0"%char (String "X"%char r) => (16, r)
    | _ => (10, s)
    end in
  match leadingDigits R s with
  | [] => None
  | ds => Some (sign * digitsValue R ds)
  end.

(** [parseInt(dimensions.split("x")[i])]; a missing piece is
    [undefined], which [parseInt] turns into NaN. *)
Definition dimension (dimensions : string) (i : nat) : option Z :=
  match split "x" dimensions !! i with
  | Some piece => parseInt piece
  | None => None
  end.

(** The template literal [`${w}x${h}`]. *)
Definition formatDimensions (w h : Z) : string :=
  pretty w +:+ "x" +:+ pretty h.

End Js.

(** ** The persisted models

    The Prisma schema is not among the sources; each record lists the
    columns the routes read and write, with the types they are used at. *)

Module Db.

Inductive Role := Admin | User.

Record UserRow := {
  user_id : string;
  user_username : string;
  user_password : string;
  user_role : Role;
  user_avatarId : option string
}.

Record Avatar := {
  avatar_id : string;
  avatar_name : string;
  avatar_imageUrl : string
}.

Record Element := {
  element_id : string;
  element_width : Z;
  element_height : Z;
  element_static : bool;
  element_imageUrl : string
}.

(** One placement of a map template. *)
Record MapElement := {
  me_elementId : string;
  me_x : Z;
  me_y : Z
}.

Record Map := {
  map_id : string;
  map_name : string;
  map_width : Z;
  map_height : Z;
  map_thumbnail : string;
  map_mapElements : list MapElement
}.

Record Space := {
  space_id : string;
  space_name : string;
  space_width : Z;
  space_height : Z;
  space_thumbnail : option string;
  space_creatorId : string
}.

Record SpaceElement := {
  se_id : string;
  se_spaceId : string;
  se_elementId : string;
  se_x : Z;
  se_y : Z
}.

(** The database behind [client]: one list of rows per model, in
    insertion order, and the number of identifiers handed out so far. *)
Record Store := {
  users : list UserRow;
  avatars : list Avatar;
  elements : list Element;
  maps : list Map;
  spaces : list Space;
  spaceElements : list SpaceElement;
  nextId : nat
}.

Definition empty : Store :=
  {| users := []; avatars := []; elements := []; maps := [];
     spaces := []; spaceElements := []; nextId := 0 |}.

Definition set_elements (st : Store) (v : list Element) : Store :=
  {| users := users st; avatars := avatars st; elements := v;
     maps := maps st; spaces := spaces st;
     spaceElements := spaceElements st; nextId := nextId st |}.

Definition set_maps (st : Store) (v : list Map) : Store :=
  {| users := users st; avatars := avatars st; elements := elements st;
     maps := v; spaces := spaces st;
     spaceElements := spaceElements st; nextId := nextId st |}.

Definition set_spaces (st : Store) (v : list Space) : Store :=
  {| users := users st; avatars := avatars st; elements := elements st;
     maps := maps st; spaces := v;
     spaceElements := spaceElements st; nextId := nextId st |}.

Definition set_spaceElements (st : Store) (v : list SpaceElement) : Store :=
  {| users := users st; avatars := avatars st; elements := elements st;
     maps := maps st; spaces := spaces st;
     spaceElements := v; nextId := nextId st |}.

Definition set_nextId (st : Store) (n : nat) : Store :=
  {| users := users st; avatars := avatars st; elements := elements st;
     maps := maps st; spaces := spaces st;
     spaceElements := spaceElements st; nextId := n |}.

(** [findFirst] and [findUnique]: the first row that satisfies the
    [where] clause. *)
Definition findFirst {A : Type} (P : A -> Prop) `{!forall x, Decision (P x)}
    (rows : list A) : option A :=
  head (filter P rows).

Definition element_find (id : string) (st : Store) : option Element :=
  findFirst (fun e => element_id e = id) (elements st).

Section Queries.

(** The identifier the store gives to the [n]-th row it creates (the
    [@default] of the id columns). *)
Variable cuid : nat -> string.

Definition freshId (st : Store) : string * Store :=
  (cuid (nextId st), set_nextId st (S (nextId st))).

(** [client.space.create({ data: { name, width, height, creatorId } })] *)
Definition space_create (name : string) (width height : Z)
    (creatorId : string) (st : Store) : Space * Store :=
  let '(id, st) := freshId st in
  let space := {| space_id := id; space_name := name;
                  space_width := width; space_height := height;
                  space_thumbnail := None;
                  space_creatorId := creatorId |} in
  (space, set_spaces st (spaces st ++ [space])).

(** A new row of the placements table, under a fresh id. *)
Definition spaceElements_insert (spaceId elementId : string) (x y : Z)
    (st : Store) : SpaceElement * Store :=
  let '(id, st) := freshId st in
  let row := {| se_id := id; se_spaceId := spaceId;
                se_elementId := elementId; se_x := x; se_y := y |} in
  (row, set_spaceElements st (spaceElements st ++ [row])).

(** [client.spaceElements.create({ data: { spaceId, elementId, x, y } })].
    The [element] of a placement is a required relation (the space route
    reads [e.element.id] of every placement): the call rejects ([None])
    when [elementId] matches no element, and nothing is written. *)
Definition spaceElements_create (spaceId elementId : string) (x y : Z)
    (st : Store) : option (SpaceElement * Store) :=
  match element_find elementId st with
  | None => None
  | Some _ => Some (spaceElements_insert spaceId elementId x y st)
  end.

(** [client.spaceElements.createMany({ data })]: one row per entry of
    [data], in order.  The entries are the placements of a stored map,
    copied as they are. *)
Fixpoint spaceElements_createMany
    (data : list (string * string * Z * Z)) (st : Store) : Store :=
  match data with
  | [] => st
  | (spaceId, elementId, x, y) :: data' =>
      spaceElements_createMany data'
        (snd (spaceElements_insert spaceId elementId x y st))
  end.

(** [client.map.create({ data: { name, width, height, thumbnail,
    mapElements: { create } } })] *)
Definition map_create (name : string) (width height : Z)
    (thumbnail : string) (placements : list MapElement) (st : Store)
    : Map * Store :=
  let '(id, st) := freshId st in
  let map := {| map_id := id; map_name := name; map_width := width;
                map_height := height; map_thumbnail := thumbnail;
                map_mapElements := placements |} in
  (map, set_maps st (maps st ++ [map])).

(** [client.element.create({ data: { width, height, static, imageUrl } })] *)
Definition element_create (width height : Z) (static : bool)
    (imageUrl : string) (st : Store) : Element * Store :=
  let '(id, st) := freshId st in
  let element := {| element_id := id; element_width := width;
                    element_height := height; element_static := static;
                    element_imageUrl := imageUrl |} in
  (element, set_elements st (elements st ++ [element])).

End Queries.

(** [client.map.findFirst({ where: { id } })] *)
Definition map_findFirst (id : string) (st : Store) : option Map :=
  findFirst (fun m => map_id m = id) (maps st).

(** [client.space.findUnique({ where: { id } })] *)
Definition space_findUnique (id : string) (st : Store) : option Space :=
  findFirst (fun s => space_id s = id) (spaces st).

(** [client.space.findUnique({ where: { id, creatorId } })] *)
Definition space_findUnique_owned (id creatorId : string) (st : Store)
    : option Space :=
  findFirst (fun s => space_id s = id /\ space_creatorId s = creatorId)
    (spaces st).

(** [client.space.findMany({ where: { creatorId } })] *)
Definition space_findMany (creatorId : string) (st : Store) : list Space :=
  filter (fun s => space_creatorId s = creatorId) (spaces st).

Definition avatar_find (id : string) (st : Store) : option Avatar :=
  findFirst (fun a => avatar_id a = id) (avatars st).

(** The [elements] relation of a space: the placements that refer to it. *)
Definition space_elements (spaceId : string) (st : Store)
    : list SpaceElement :=
  filter (fun e => se_spaceId e = spaceId) (spaceElements st).

(** [client.spaceElements.findFirst({ where: { id }, include: { space:
    true } })].  The relation is required: a row whose space is missing
    cannot be returned and the query is rejected ([inr tt]). *)
Definition spaceElements_findFirst_space (id : string) (st : Store)
    : option (SpaceElement * Space) + unit :=
  match findFirst (fun e => se_id e = id) (spaceElements st) with
  | None => inl None
  | Some row =>
      match space_findUnique (se_spaceId row) st with
      | Some space => inl (Some (row, space))
      | None => inr tt
      end
  end.

(** [client.spaceElements.delete({ where: { id } })] *)
Definition spaceElements_delete (id : string) (st : Store) : Store :=
  set_spaceElements st (filter (fun e => se_id e <> id) (spaceElements st)).

(** Modelled from the spec: the referential action of the schema on
    deleting a Space, which is not among the sources.  [client.space
    .delete({ where: { id } })] removes the space and, by referential
    cascade delegated to the store, its SpaceElements. *)
Definition space_delete (id : string) (st : Store) : Store :=
  set_spaceElements
    (set_spaces st (filter (fun s => space_id s <> id) (spaces st)))
    (filter (fun e => se_spaceId e <> id) (spaceElements st)).

(** [client.user.findMany({ where: { id: { in: ids } }, select: {
    avatar: true, id: true } })]: each matching user with its avatar,
    when it has one. *)
Definition user_findMany_in (ids : list string) (st : Store)
    : list (string * option Avatar) :=
  (fun u => (user_id u, user_avatarId u ≫= fun a => avatar_find a st))
    <$> filter (fun u => user_id u ∈ ids) (users st).

(** A query of the client that has been built but not yet run. *)
Inductive Query :=
| ElementUpdate (id : string) (imageUrl : string).

(** Running [client.element.update({ where: { id }, data: { imageUrl }
    })]; [None] when no element has that id. *)
Definition run (q : Query) (st : Store) : option Store :=
  match q with
  | ElementUpdate id imageUrl =>
      match element_find id st with
      | None => None
      | Some _ =>
          Some (set_elements st
                  ((fun e =>
                      if decide (element_id e = id)
                      then {| element_id := element_id e;
                              element_width := element_width e;
                              element_height := element_height e;
                              element_static := element_static e;
                              element_imageUrl := imageUrl |}
                      else e) <$> elements st))
      end
  end.

End Db.

(** ** The route handlers *)

Module Routes.
Import Js Db.

(** An entry of the list of spaces, and a placement joined with its
    element, as the responses carry them. *)
Record SpaceSummary := {
  ss_id : string;
  ss_name : string;
  ss_thumbnail : option string;
  ss_dimensions : string
}.

Record PlacedElement := {
  pe_id : string;
  pe_element : Element;
  pe_x : Z;
  pe_y : Z
}.

(** The body of a JSON response. *)
Inductive Json :=
| JMessage (message : string)
| JSpaceId (spaceId : string)
| JId (id : string)
| JAvatars (avatars : list (string * option string))
| JSpaces (spaces : list SpaceSummary)
| JSpace (dimensions : string) (elements : list PlacedElement).

Record Response := { status : nat; body : Json }.

(** What a handler does with a request: it sends a response, or a store
    call rejects (or a property of [null] is read) and nothing is sent. *)
Inductive Outcome :=
| Sent (r : Response)
| Thrown.

(** [res.json(body)] and [res.status(code).json({ message })] *)
Definition json (b : Json) : Outcome := Sent {| status := 200; body := b |}.
Definition fail (code : nat) (message : string) : Outcome :=
  Sent {| status := code; body := JMessage message |}.

(** The failures of the specification, as the responses that carry them. *)
Definition ValidationFailed : Outcome := fail 400 "Validation failed".
Definition MapNotFound : Outcome := fail 400 "Map not found".
Definition SpaceNotFound : Outcome := fail 400 "Space not found".
Definition OutOfBounds : Outcome :=
  fail 400 "Point is outside of the boundary".
Definition Unauthorized : Outcome := fail 403 "Unauthorized".

(** The parsed payloads. *)
Record CreateSpaceData := {
  cs_name : string;
  cs_dimensions : string;
  cs_mapId : option string
}.

Record AddElementData := {
  ae_spaceId : string;
  ae_elementId : string;
  ae_x : Z;
  ae_y : Z
}.

Record CreateMapData := {
  cm_name : string;
  cm_dimensions : string;
  cm_thumbnail : string;
  cm_defaultElements : list MapElement
}.

(** What a request carries on a route without middleware: the
    credentials of the caller, if any, and the [ids] query parameter. *)
Record Request := {
  req_authorization : option string;
  req_query_ids : option string
}.

(** The Bulk Identifier Normalizer:
    [(req.query.ids ?? "[]").slice(1, length - 1).split(",")] *)
Definition parseIdList (ids : option string) : list string :=
  let userIdString := default "[]" ids in
  split ","
    (slice userIdString 1 (Z.of_nat (String.length userIdString) - 1)).

(** [userRouter.get("/metadata/bulk", ..)] *)
Definition userRouter_get_metadata_bulk (req : Request) (st : Store)
    : Outcome * Store :=
  let userIds := parseIdList (req_query_ids req) in
  let metadata := user_findMany_in userIds st in
  (json (JAvatars
           ((fun m : string * option Avatar =>
               (fst m, avatar_imageUrl <$> snd m)) <$> metadata)),
   st).

Section Handlers.

Variable cuid : nat -> string.

(** [spaceRouter.post("/", userMiddleware, ..)] *)
Definition spaceRouter_post (userId : string)
    (parsedData : option CreateSpaceData) (st : Store)
    : Outcome * Store :=
  match parsedData with
  | None => (ValidationFailed, st)
  | Some data =>
      if negb (truthy_opt (cs_mapId data)) then
        match dimension (cs_dimensions data) 0,
              dimension (cs_dimensions data) 1 with
        | Some width, Some height =>
            let '(space, st) :=
              space_create cuid (cs_name data) width height userId st in
            (json (JSpaceId (space_id space)), st)
        | _, _ => (Thrown, st)
        end
      else
        match map_findFirst (default "" (cs_mapId data)) st with
        | None => (MapNotFound, st)
        | Some map =>
            let '(space, st) :=
              space_create cuid (cs_name data) (map_width map)
                (map_height map) userId st in
            let st :=
              spaceElements_createMany cuid
                ((fun e : MapElement =>
                    (space_id space, me_elementId e, me_x e, me_y e))
                   <$> map_mapElements map)
                st in
            (json (JSpaceId (space_id space)), st)
        end
  end.

(** [spaceRouter.delete("/element", userMiddleware, ..)]; [id] is the
    parsed [{ id }]. *)
Definition spaceRouter_delete_element (userId : string)
    (parsedData : option string) (st : Store) : Outcome * Store :=
  match parsedData with
  | None => (ValidationFailed, st)
  | Some id =>
      match spaceElements_findFirst_space id st with
      | inr _ => (Thrown, st)
      | inl spaceElement =>
          let creatorId := (space_creatorId ∘ snd) <$> spaceElement in
          if negb (truthy_opt creatorId)
             || negb (bool_decide (creatorId = Some userId))
          then (Unauthorized, st)
          else (json (JMessage "Element deleted"),
                spaceElements_delete id st)
      end
  end.

(** [spaceRouter.delete("/:spaceId", userMiddleware, ..)] *)
Definition spaceRouter_delete (userId spaceId : string) (st : Store)
    : Outcome * Store :=
  match space_findUnique spaceId st with
  | None => (SpaceNotFound, st)
  | Some space =>
      if negb (bool_decide (space_creatorId space = userId))
      then (Unauthorized, st)
      else (json (JMessage "Space deleted"), space_delete spaceId st)
  end.

(** [spaceRouter.get("/all", userMiddleware, ..)] *)
Definition spaceRouter_get_all (userId : string) (st : Store)
    : Outcome * Store :=
  (json (JSpaces
           ((fun s : Space =>
               {| ss_id := space_id s; ss_name := space_name s;
                  ss_thumbnail := space_thumbnail s;
                  ss_dimensions :=
                    formatDimensions (space_width s) (space_height s) |})
              <$> space_findMany userId st)),
   st).

(** [spaceRouter.post("/element", userMiddleware, ..)].  The create call
    is awaited outside any [try]: when it rejects, no response is sent. *)
Definition spaceRouter_post_element (userId : string)
    (parsedData : option AddElementData) (st : Store)
    : Outcome * Store :=
  match parsedData with
  | None => (ValidationFailed, st)
  | Some body =>
      let space := space_findUnique_owned (ae_spaceId body) userId st in
      if (ae_x body <? 0) || (ae_y body <? 0)
         || gt_undef (ae_x body) (space_width <$> space)
         || gt_undef (ae_y body) (space_height <$> space)
      then (OutOfBounds, st)
      else
        match space with
        | None => (SpaceNotFound, st)
        | Some _ =>
            match spaceElements_create cuid (ae_spaceId body)
                    (ae_elementId body) (ae_x body) (ae_y body) st with
            | Some (_, st) => (json (JMessage "Element added"), st)
            | None => (Thrown, st)
            end
        end
  end.

(** [spaceRouter.get("/:spaceId", ..)].  The [element] of a placement
    is a required relation: reading it for a placement without one
    throws. *)
Definition spaceRouter_get (spaceId : string) (st : Store)
    : Outcome * Store :=
  match space_findUnique spaceId st with
  | None => (SpaceNotFound, st)
  | Some space =>
      match mapM (fun e : SpaceElement =>
                    (fun el : Element => {| pe_id := se_id e; pe_element := el;
                                  pe_x := se_x e; pe_y := se_y e |})
                      <$> element_find (se_elementId e) st)
              (space_elements (space_id space) st) with
      | None => (Thrown, st)
      | Some views =>
          (json (JSpace
                   (formatDimensions (space_width space)
                      (space_height space))
                   views),
           st)
      end
  end.

(** [adminRouter.post("/element", ..)]; the payload is [(width,
    height, static, imageUrl)]. *)
Definition adminRouter_post_element
    (parsedData : option (Z * Z * bool * string)) (st : Store)
    : Outcome * Store :=
  match parsedData with
  | None => (ValidationFailed, st)
  | Some (width, height, static, imageUrl) =>
      let '(element, st) :=
        element_create cuid width height static imageUrl st in
      (json (JId (element_id element)), st)
  end.

(** [adminRouter.post("/map", ..)] *)
Definition adminRouter_post_map (parsedData : option CreateMapData)
    (st : Store) : Outcome * Store :=
  match parsedData with
  | None => (ValidationFailed, st)
  | Some data =>
      match dimension (cm_dimensions data) 0,
            dimension (cm_dimensions data) 1 with
      | Some width, Some height =>
          let '(map, st) :=
            map_create cuid (cm_name data) width height
              (cm_thumbnail data)
              ((fun e : MapElement =>
                  {| me_elementId := me_elementId e;
                            me_x := me_x e; me_y := me_y e |})
                 <$> cm_defaultElements data)
              st in
          (json (JId (map_id map)), st)
      | _, _ => (Thrown, st)
      end
  end.

End Handlers.

(** [adminRouter.put("/element/:elementId", ..)]; [imageUrl] is the
    parsed [{ imageUrl }].  The handler is not [async]: the update query
    is built, nothing waits for it, and the response is sent.  The
    third component lists the queries still pending at that moment. *)
Definition adminRouter_put_element (elementId : string)
    (parsedData : option string) (st : Store)
    : Outcome * Store * list Query :=
  match parsedData with
  | None => (ValidationFailed, st, [])
  | Some imageUrl =>
      let pending := [ElementUpdate elementId imageUrl] in
      (json (JMessage "Element updated"), st, pending)
  end.

End Routes.

(** ** Definitions used by the statements *)

Module Props.
Import Js Db Routes.

(** The normalizer in the words of its description: strip exactly the
    first and the last character, then split on [","]. *)
Definition dropFirst (s : string) : string :=
  match s with
  | EmptyString => EmptyString
  | String _ s' => s'
  end.

Fixpoint dropLast (s : string) : string :=
  match s with
  | EmptyString => EmptyString
  | String c s' =>
      match s' with
      | EmptyString => EmptyString
      | String _ _ => String c (dropLast s')
      end
  end.

Definition stripEnds (s : string) : string := dropLast (dropFirst s).

(** [pieces.join(sep)], the inverse of splitting. *)
Fixpoint join (sep : ascii) (pieces : list string) : string :=
  match pieces with
  | [] => EmptyString
  | [piece] => piece
  | piece :: pieces' => piece +:+ String sep (join sep pieces')
  end.

Fixpoint occurs (c : ascii) (s : string) : bool :=
  match s with
  | EmptyString => false
  | String c' s' => Ascii.eqb c' c || occurs c s'
  end.

(** The same request sent [n] times in a row: the outcomes, first to
    last, and the store after the last one. *)
Fixpoint repeated (handler : Store -> Outcome * Store) (n : nat)
    (st : Store) : list Outcome * Store :=
  match n with
  | O => ([], st)
  | S n' =>
      let '(out, st1) := handler st in
      let '(outs, st2) := repeated handler n' st1 in
      (out :: outs, st2)
  end.

(** The columns of a placement other than its own id. *)
Definition placement (e : SpaceElement) : string * string * Z * Z :=
  (se_spaceId e, se_elementId e, se_x e, se_y e).

(** A placement lies on the canvas of a space, border included. *)
Definition within (space : Space) (e : SpaceElement) : Prop :=
  0 <= se_x e <= space_width space /\ 0 <= se_y e <= space_height space.

(** Every placement refers to an element of the catalog. *)
Definition catalog_ok (st : Store) : Prop :=
  Forall (fun e => is_Some (element_find (se_elementId e) st))
    (spaceElements st).

Section Integrity.

Variable cuid : nat -> string.

(** [id] was handed out by the store. *)
Definition issued (st : Store) (id : string) : Prop :=
  exists k, (k < nextId st)%nat /\ id = cuid k.

(** What the store guarantees about its rows: the ids of maps and
    spaces are generated ones, and every placement belongs to a space
    that exists. *)
Record store_ok (st : Store) : Prop := {
  ok_maps : Forall (fun m => issued st (map_id m)) (maps st);
  ok_spaces : Forall (fun s => issued st (space_id s)) (spaces st);
  ok_placements :
    Forall (fun e => exists s, s ∈ spaces st /\ space_id s = se_spaceId e)
      (spaceElements st)
}.

(** The requests that reach the handlers, and a late completion of a
    query that was left pending. *)
Inductive Call :=
| CreateElement (parsedData : option (Z * Z * bool * string))
| CreateMap (parsedData : option CreateMapData)
| CreateSpace (userId : string) (parsedData : option CreateSpaceData)
| DeleteSpaceElement (userId : string) (parsedData : option string)
| DeleteSpace (userId spaceId : string)
| ListSpaces (userId : string)
| AddSpaceElement (userId : string) (parsedData : option AddElementData)
| GetSpace (spaceId : string)
| GetBulkUserMetadata (req : Request)
| Complete (q : Query).

Definition perform (c : Call) (st : Store) : Store :=
  match c with
  | CreateElement parsedData =>
      snd (adminRouter_post_element cuid parsedData st)
  | CreateMap parsedData => snd (adminRouter_post_map cuid parsedData st)
  | CreateSpace userId parsedData =>
      snd (spaceRouter_post cuid userId parsedData st)
  | DeleteSpaceElement userId parsedData =>
      snd (spaceRouter_delete_element userId parsedData st)
  | DeleteSpace userId spaceId => snd (spaceRouter_delete userId spaceId st)
  | ListSpaces userId => snd (spaceRouter_get_all userId st)
  | AddSpaceElement userId parsedData =>
      snd (spaceRouter_post_element cuid userId parsedData st)
  | GetSpace spaceId => snd (spaceRouter_get spaceId st)
  | GetBulkUserMetadata req => snd (userRouter_get_metadata_bulk req st)
  | Complete q => default st (run q st)
  end.

(** The store after a history of calls, oldest first. *)
Definition after (history : list Call) (st : Store) : Store :=
  fold_left (fun st c => perform c st) history st.

End Integrity.

(** An id generator for the examples: ["c0"], ["c1"], ... *)
Definition sample_cuid (n : nat) : string := "c" +:+ pretty n.

End Props.

(** ** The other routes: accounts, avatars and the catalog listings *)

Module Accounts.
Import Js Db Routes.

Definition set_users (st : Store) (v : list UserRow) : Store :=
  {| users := v; avatars := avatars st; elements := elements st;
     maps := maps st; spaces := spaces st;
     spaceElements := spaceElements st; nextId := nextId st |}.

Definition set_avatars (st : Store) (v : list Avatar) : Store :=
  {| users := users st; avatars := v; elements := elements st;
     maps := maps st; spaces := spaces st;
     spaceElements := spaceElements st; nextId := nextId st |}.

(** [client.user.findUnique({ where: { username } })] *)
Definition user_findUnique_username (username : string) (st : Store)
    : option UserRow :=
  findFirst (fun u => user_username u = username) (users st).

(** [client.user.update({ where: { id }, data: { avatarId } })]; the call
    rejects ([None]) when no user has that id.  Whether an [avatarId]
    that matches no avatar is rejected is decided by the schema; the
    properties of this update are stated for stored avatars. *)
Definition user_update_avatarId (id avatarId : string) (st : Store)
    : option Store :=
  match findFirst (fun u => user_id u = id) (users st) with
  | None => None
  | Some _ =>
      Some (set_users st
              ((fun u : UserRow =>
                  if decide (user_id u = id)
                  then {| user_id := user_id u;
                          user_username := user_username u;
                          user_password := user_password u;
                          user_role := user_role u;
                          user_avatarId := Some avatarId |}
                  else u) <$> users st))
  end.

(** [userRouter.post("/metadata", userMiddleware, ..)]; [parsedData] is
    the parsed [{ avatarId }].  A rejected update is caught and answered
    with status 400. *)
Definition userRouter_post_metadata (userId : string)
    (parsedData : option string) (st : Store) : Outcome * Store :=
  match parsedData with
  | None => (ValidationFailed, st)
  | Some avatarId =>
      match user_update_avatarId userId avatarId st with
      | Some st' => (json (JMessage "Metadata updated"), st')
      | None => (fail 400 "Internal server error", st)
      end
  end.

(** The bodies of the responses of the routes below. *)
Inductive Body :=
| BMessage (message : string)
| BUserId (userId : string)
| BToken (token : string)
| BAvatarId (avatarId : string)
| BElements (elements : list Element)
| BAvatars (avatars : list Avatar).

Record Reply := { code : nat; payload : Body }.

(** [router.get("/elements", ..)]: every element with its id, imageUrl,
    width, height and static flag. *)
Definition router_get_elements (st : Store) : Reply * Store :=
  ({| code := 200;
      payload :=
        BElements
          ((fun e : Element =>
              {| element_id := element_id e;
                 element_width := element_width e;
                 element_height := element_height e;
                 element_static := element_static e;
                 element_imageUrl := element_imageUrl e |})
             <$> elements st) |},
   st).

(** [router.get("/avatars", ..)] *)
Definition router_get_avatars (st : Store) : Reply * Store :=
  ({| code := 200;
      payload :=
        BAvatars
          ((fun x : Avatar =>
              {| avatar_id := avatar_id x; avatar_name := avatar_name x;
                 avatar_imageUrl := avatar_imageUrl x |})
             <$> avatars st) |},
   st).

Record SignupData := {
  su_username : string;
  su_password : string;
  su_type : string
}.

Record SigninData := {
  si_username : string;
  si_password : string
}.

Section Handlers.

Variable cuid : nat -> string.

(** [client.avatar.create({ data: { name, imageUrl } })] *)
Definition avatar_create (name imageUrl : string) (st : Store)
    : Avatar * Store :=
  let '(id, st) := freshId cuid st in
  let avatar := {| avatar_id := id; avatar_name := name;
                   avatar_imageUrl := imageUrl |} in
  (avatar, set_avatars st (avatars st ++ [avatar])).

(** [adminRouter.post("/avatar", ..)]; the payload is [(name, imageUrl)]. *)
Definition adminRouter_post_avatar (parsedData : option (string * string))
    (st : Store) : Reply * Store :=
  match parsedData with
  | None => ({| code := 400; payload := BMessage "Validation failed" |}, st)
  | Some (name, imageUrl) =>
      let '(avatar, st) := avatar_create name imageUrl st in
      ({| code := 200; payload := BAvatarId (avatar_id avatar) |}, st)
  end.

(** [client.user.create({ data: { username, password, role } })].  The
    username is a unique column (it is the key of [findUnique] in the
    signin route): the call rejects ([None]) when it is taken. *)
Definition user_create (username password : string) (role : Role)
    (st : Store) : option (UserRow * Store) :=
  match user_findUnique_username username st with
  | Some _ => None
  | None =>
      let '(id, st) := freshId cuid st in
      let user := {| user_id := id; user_username := username;
                     user_password := password; user_role := role;
                     user_avatarId := None |} in
      Some (user, set_users st (users st ++ [user]))
  end.

(** [router.post("/signup", ..)]; [hashedPassword] is the result of
    [await hash(parsedData.data.password)]. *)
Definition router_post_signup (hashedPassword : string)
    (parsedData : option SignupData) (st : Store) : Reply * Store :=
  match parsedData with
  | None => ({| code := 400; payload := BMessage "Validation failed" |}, st)
  | Some data =>
      match user_create (su_username data) hashedPassword
              (if String.eqb (su_type data) "admin" then Admin else User)
              st with
      | Some (user, st') =>
          ({| code := 200; payload := BUserId (user_id user) |}, st')
      | None =>
          ({| code := 400; payload := BMessage "User already exists" |}, st)
      end
  end.

End Handlers.

Section Signin.

(** [compare(password, hash)] of the scrypt module and
    [jwt.sign({ userId, role }, JWT_PASSWORD)], which are not among the
    sources. *)
Variable compare : string -> string -> bool.
Variable sign : string -> Role -> string.

(** [router.post("/signin", ..)] *)
Definition router_post_signin (parsedData : option SigninData) (st : Store)
    : Reply * Store :=
  match parsedData with
  | None => ({| code := 403; payload := BMessage "Validation failed" |}, st)
  | Some data =>
      match user_findUnique_username (si_username data) st with
      | None => ({| code := 403; payload := BMessage "User not found" |}, st)
      | Some user =>
          if negb (compare (si_password data) (user_password user))
          then ({| code := 403; payload := BMessage "Invalid password" |}, st)
          else ({| code := 200;
                   payload := BToken (sign (user_id user) (user_role user)) |},
                st)
      end
  end.

End Signin.

(** Every request of the service that can change the store. *)
Inductive Op :=
| SpaceOp (c : Props.Call)
| CreateAvatar (parsedData : option (string * string))
| UpdateUserAvatar (userId : string) (parsedData : option string)
| Signup (hashedPassword : string) (parsedData : option SignupData).

Definition applyOp (cuid : nat -> string) (op : Op) (st : Store) : Store :=
  match op with
  | SpaceOp c => Props.perform cuid c st
  | CreateAvatar parsedData => snd (adminRouter_post_avatar cuid parsedData st)
  | UpdateUserAvatar userId parsedData =>
      snd (userRouter_post_metadata userId parsedData st)
  | Signup hashedPassword parsedData =>
      snd (router_post_signup cuid hashedPassword parsedData st)
  end.

Definition replay (cuid : nat -> string) (ops : list Op) (st : Store)
    : Store :=
  fold_left (fun st op => applyOp cuid op st) ops st.

(** The keys of a table: every id was handed out by the store, below the
    counter [n], and no id occurs twice. *)
Definition keys (cuid : nat -> string) (n : nat) (ids : list string) : Prop :=
  Forall (fun id => exists k, (k < n)%nat /\ id = cuid k) ids /\ NoDup ids.

Record keys_ok (cuid : nat -> string) (st : Store) : Prop := {
  keys_users : keys cuid (nextId st) (user_id <$> users st);
  keys_avatars : keys cuid (nextId st) (avatar_id <$> avatars st);
  keys_elements : keys cuid (nextId st) (element_id <$> elements st);
  keys_maps : keys cuid (nextId st) (map_id <$> maps st);
  keys_spaces : keys cuid (nextId st) (space_id <$> spaces st);
  keys_placements : keys cuid (nextId st) (se_id <$> spaceElements st);
  keys_usernames : NoDup (user_username <$> users st)
}.

End Accounts.

Import Js Db Routes Props.
Import Accounts.

(** ** Lookups *)

Section FindFirst.
Context {A : Type} (P : A -> Prop) `{!forall x, Decision (P x)}.

Lemma findFirst_cons (x : A) (rows : list A) :
  findFirst P (x :: rows) = if decide (P x) then Some x else findFirst P rows.
Proof.
  unfold findFirst. rewrite filter_cons. destruct (decide (P x)); reflexivity.
Qed.

Lemma findFirst_Some (rows : list A) (x : A) :
  findFirst P rows = Some x -> x ∈ rows /\ P x.
Proof.
  induction rows as [|y rows IH]; [discriminate|].
  rewrite findFirst_cons. destruct (decide (P y)) as [Hy|Hy].
  - intros [= <-]. split; [left | exact Hy].
  - intros Hf. destruct (IH Hf) as [Hin Hx]. split; [by right | exact Hx].
Qed.

Lemma findFirst_None (rows : list A) :
  findFirst P rows = None <-> Forall (fun x => ~ P x) rows.
Proof.
  induction rows as [|y rows IH]; [split; [constructor | reflexivity]|].
  rewrite findFirst_cons. destruct (decide (P y)) as [Hy|Hy].
  - split; [discriminate | intros Hn; inversion Hn; contradiction].
  - split.
    + intros Hf. constructor; [exact Hy | by apply IH].
    + intros Hn. inversion Hn; subst. by apply IH.
Qed.

Lemma findFirst_is_Some (rows : list A) (x : A) :
  x ∈ rows -> P x -> is_Some (findFirst P rows).
Proof.
  intros Hin Hx. destruct (findFirst P rows) eqn:E; [by eexists|].
  apply findFirst_None in E. rewrite list.Forall_forall in E.
  destruct (E x Hin Hx).
Qed.

Lemma findFirst_app_None (rows more : list A) :
  findFirst P rows = None -> findFirst P (rows ++ more) = findFirst P more.
Proof.
  induction rows as [|y rows IH]; [reflexivity|].
  simpl. rewrite !findFirst_cons. destruct (decide (P y)); [discriminate|].
  exact IH.
Qed.

Lemma findFirst_app_Some (rows more : list A) (x : A) :
  findFirst P rows = Some x -> findFirst P (rows ++ more) = Some x.
Proof.
  induction rows as [|y rows IH]; [discriminate|].
  simpl. rewrite !findFirst_cons. destruct (decide (P y)); [trivial|].
  exact IH.
Qed.

End FindFirst.

(** ** The bulk identifier normalizer *)

Lemma substring_dropLast (s : string) :
  String.substring 0 (String.length s - 1) s = dropLast s.
Proof.
  induction s as [|c s IH]; [reflexivity|].
  destruct s as [|c' s']; [reflexivity|].
  replace (String.length (String c (String c' s')) - 1)%nat
    with (S (String.length (String c' s') - 1)) by (cbn [String.length]; lia).
  cbn [String.substring dropLast]. f_equal. exact IH.
Qed.

Lemma slice_stripEnds (s : string) :
  slice s 1 (Z.of_nat (String.length s) - 1) = stripEnds s.
Proof.
  unfold slice, clampIndex, stripEnds.
  destruct s as [|c s]; [reflexivity|].
  cbn [String.length dropFirst].
  set (n := String.length s).
  replace (Z.of_nat (S n) - 1) with (Z.of_nat n) by lia.
  destruct (Z.ltb_spec 1 0) as [?|_]; [lia|].
  destruct (Z.ltb_spec (Z.of_nat n) 0) as [?|_]; [lia|].
  replace (Z.to_nat (Z.min 1 (Z.of_nat (S n)))) with 1%nat by lia.
  replace (Z.to_nat
             (Z.max (Z.min (Z.of_nat n) (Z.of_nat (S n))
                     - Z.min 1 (Z.of_nat (S n))) 0))
    with (n - 1)%nat by lia.
  cbn [String.substring]. apply substring_dropLast.
Qed.

Lemma split_not_nil (sep : ascii) (s : string) : split sep s <> [].
Proof.
  destruct s as [|c s]; [discriminate|].
  cbn [split]. destruct (Ascii.eqb c sep); [discriminate|].
  destruct (split sep s); discriminate.
Qed.

Lemma join_cons (sep : ascii) (piece : string) (pieces : list string) :
  pieces <> [] ->
  join sep (piece :: pieces) = piece +:+ String sep (join sep pieces).
Proof. destruct pieces; [contradiction | reflexivity]. Qed.

Lemma join_split (sep : ascii) (s : string) : join sep (split sep s) = s.
Proof.
  induction s as [|c s IH]; [reflexivity|].
  cbn [split]. destruct (Ascii.eqb_spec c sep) as [->|Hc].
  - rewrite join_cons by apply split_not_nil. by rewrite IH.
  - destruct (split sep s) as [|p ps] eqn:E.
    + destruct (split_not_nil sep s E).
    + destruct ps as [|q ps].
      * cbn [join] in *. by rewrite <- IH.
      * rewrite join_cons by discriminate.
        rewrite join_cons in IH by discriminate.
        by rewrite <- IH.
Qed.

Lemma split_no_sep (sep : ascii) (s : string) :
  Forall (fun piece => occurs sep piece = false) (split sep s).
Proof.
  induction s as [|c s IH]; [by repeat constructor|].
  cbn [split]. destruct (Ascii.eqb_spec c sep) as [->|Hc].
  - by constructor.
  - assert (Hhead : forall piece, occurs sep piece = false ->
                              occurs sep (String c piece) = false).
    { intros piece Hp. cbn [occurs].
      destruct (Ascii.eqb_spec c sep); [contradiction | exact Hp]. }
    destruct (split sep s) as [|p ps].
    + constructor; [by apply Hhead | constructor].
    + inversion IH; subst. constructor; [by apply Hhead | assumption].
Qed.

(** C8. The Bulk Identifier Normalizer of GetBulkUserMetadata removes
    exactly the first and the last character of the raw string and splits
    what is left on [","]: the pieces contain no comma and, joined by
    commas, give back the stripped string.  ["[id1,id2,id3]"] yields [id1],
    [id2], [id3] in order, and ["[]"], which is also the default of an
    absent parameter, yields exactly one empty string. *)
Theorem parseIdList_strip_split :
  (forall ids : option string,
      parseIdList ids = split "," (stripEnds (default "[]" ids))) /\
  (forall raw : string,
      join "," (parseIdList (Some raw)) = stripEnds raw /\
      Forall (fun id => occurs "," id = false) (parseIdList (Some raw))) /\
  parseIdList (Some "[id1,id2,id3]") = ["id1"; "id2"; "id3"] /\
  parseIdList (Some "[]") = [""] /\
  parseIdList None = [""].
Proof.
  assert (Heq : forall ids : option string,
             parseIdList ids = split "," (stripEnds (default "[]" ids))).
  { intros ids. unfold parseIdList. by rewrite slice_stripEnds. }
  split; [exact Heq|]. split; [|by vm_compute].
  intros raw. rewrite Heq. cbn [default].
  split; [apply join_split | apply split_no_sep].
Qed.

(** ** Bulk metadata: no caller in the result *)

(** C10. GetBulkUserMetadata performs no authentication and its result
    does not depend on who calls it: two requests with the same raw [ids]
    string, whatever credentials they carry (or none), get the same answer
    from the same store, a list of (userId, avatar image) entries, and
    leave the store as it was. *)
Theorem bulk_metadata_ignores_caller (r1 r2 : Request) (st : Store) :
  req_query_ids r1 = req_query_ids r2 ->
  userRouter_get_metadata_bulk r1 st = userRouter_get_metadata_bulk r2 st /\
  exists avatars,
    userRouter_get_metadata_bulk r1 st = (json (JAvatars avatars), st).
Proof.
  intros Hids. unfold userRouter_get_metadata_bulk. rewrite Hids.
  split; [reflexivity | eexists; reflexivity].
Qed.

Lemma bulk_metadata_ignores_caller_witness :
  let st := {| users := [ {| user_id := "u1"; user_username := "ann";
                             user_password := "h"; user_role := User;
                             user_avatarId := Some "a1" |};
                          {| user_id := "u2"; user_username := "bob";
                             user_password := "h"; user_role := Admin;
                             user_avatarId := None |} ];
               avatars := [ {| avatar_id := "a1"; avatar_name := "fox";
                               avatar_imageUrl := "fox.png" |} ];
               elements := []; maps := []; spaces := [];
               spaceElements := []; nextId := 0 |} in
  let anonymous := {| req_authorization := None;
                      req_query_ids := Some "[u1,u2]" |} in
  let signedIn := {| req_authorization := Some "Bearer token";
                     req_query_ids := Some "[u1,u2]" |} in
  userRouter_get_metadata_bulk anonymous st
  = userRouter_get_metadata_bulk signedIn st /\
  fst (userRouter_get_metadata_bulk anonymous st)
  = json (JAvatars [("u1", Some "fox.png"); ("u2", None)]).
Proof.
  intros st anonymous signedIn. split.
  - apply (bulk_metadata_ignores_caller anonymous signedIn st). reflexivity.
  - vm_compute. reflexivity.
Defined.

(** ** Deleting a space *)

Lemma delete_space_non_owner_once (st : Store) (spaceId A B : string)
    (space : Space) :
  space_findUnique spaceId st = Some space ->
  space_creatorId space = A ->
  B <> A ->
  spaceRouter_delete B spaceId st = (Unauthorized, st).
Proof.
  intros Hfind Howner Hne. unfold spaceRouter_delete. rewrite Hfind.
  rewrite bool_decide_eq_false_2 by congruence. reflexivity.
Qed.

(** C6. For a Space owned by actor A and any other actor B, DeleteSpace by
    B answers Unauthorized and leaves the whole store, with the Space and
    its SpaceElements, unchanged, however many times B repeats the
    request. *)
Theorem delete_space_non_owner (st : Store) (spaceId A B : string)
    (space : Space) (n : nat) :
  space_findUnique spaceId st = Some space ->
  space_creatorId space = A ->
  B <> A ->
  repeated (spaceRouter_delete B spaceId) n st = (replicate n Unauthorized, st).
Proof.
  intros Hfind Howner Hne. induction n as [|n IH]; [reflexivity|].
  cbn [repeated replicate].
  rewrite (delete_space_non_owner_once st spaceId A B space Hfind Howner Hne).
  by rewrite IH.
Qed.

Lemma delete_space_non_owner_witness :
  let st := {| users := []; avatars := []; elements := []; maps := [];
               spaces := [ {| space_id := "s1"; space_name := "lobby";
                              space_width := 800; space_height := 600;
                              space_thumbnail := None;
                              space_creatorId := "alice" |} ];
               spaceElements := [ {| se_id := "p1"; se_spaceId := "s1";
                                     se_elementId := "e1";
                                     se_x := 10; se_y := 20 |} ];
               nextId := 0 |} in
  repeated (spaceRouter_delete "bob" "s1") 3 st
  = ([Unauthorized; Unauthorized; Unauthorized], st).
Proof.
  intros st.
  apply (delete_space_non_owner st "s1" "alice" "bob"
           {| space_id := "s1"; space_name := "lobby";
              space_width := 800; space_height := 600;
              space_thumbnail := None; space_creatorId := "alice" |} 3).
  - reflexivity.
  - reflexivity.
  - discriminate.
Defined.

(** ** Creating a space *)




(** ** Placing an element *)

Section Placement.
Variable cuid : nat -> string.

Lemma post_element_owned (userId : string) (body : AddElementData)
    (st : Store) (space : Space) :
  space_findUnique_owned (ae_spaceId body) userId st = Some space ->
  spaceRouter_post_element cuid userId (Some body) st
  = if (ae_x body <? 0) || (ae_y body <? 0)
       || (space_width space <? ae_x body)
       || (space_height space <? ae_y body)
    then (OutOfBounds, st)
    else match element_find (ae_elementId body) st with
         | Some _ =>
             (json (JMessage "Element added"),
              snd (spaceElements_insert cuid (ae_spaceId body)
                     (ae_elementId body) (ae_x body) (ae_y body) st))
         | None => (Thrown, st)
         end.
Proof.
  intros Hfind. unfold spaceRouter_post_element, spaceElements_create.
  rewrite Hfind. cbn [fmap option_fmap option_map gt_undef].
  destruct (_ || _); [reflexivity|].
  destruct (element_find (ae_elementId body) st); reflexivity.
Qed.

Lemma post_element_missing (userId : string) (body : AddElementData)
    (st : Store) :
  space_findUnique_owned (ae_spaceId body) userId st = None ->
  spaceRouter_post_element cuid userId (Some body) st
  = if (ae_x body <? 0) || (ae_y body <? 0)
    then (OutOfBounds, st) else (SpaceNotFound, st).
Proof.
  intros Hfind. unfold spaceRouter_post_element. rewrite Hfind.
  cbn [fmap option_fmap option_map gt_undef].
  rewrite !orb_false_r. reflexivity.
Qed.


(** The placement written by a successful AddSpaceElement is the last
    row of the table and carries the coordinates of the request. *)
Lemma spaceElements_insert_rows (spaceId elementId : string) (x y : Z)
    (st : Store) :
  let st' := snd (spaceElements_insert cuid spaceId elementId x y st) in
  spaceElements st'
  = (spaceElements st
       ++ [ {| se_id := cuid (nextId st); se_spaceId := spaceId;
               se_elementId := elementId; se_x := x; se_y := y |} ])%list /\
  spaces st' = spaces st /\ elements st' = elements st /\
  maps st' = maps st /\ users st' = users st /\ avatars st' = avatars st /\
  nextId st' = S (nextId st).
Proof. cbn. repeat split. Qed.




(** A successful AddSpaceElement keeps every placement of the store on an
    element of the catalog. *)
Lemma catalog_ok_post_element (userId : string)
    (parsedData : option AddElementData) (st : Store) :
  catalog_ok st ->
  catalog_ok (snd (spaceRouter_post_element cuid userId parsedData st)).
Proof.
  intros Hok. destruct parsedData as [body|]; [|exact Hok].
  destruct (space_findUnique_owned (ae_spaceId body) userId st)
    as [space|] eqn:Hfind.
  - rewrite (post_element_owned _ _ _ _ Hfind).
    destruct (_ || _); [exact Hok|].
    destruct (element_find (ae_elementId body) st) as [el|] eqn:Hel;
      [|exact Hok].
    unfold catalog_ok in *. cbn. apply Forall_app. split; [exact Hok|].
    apply Forall_cons; [|apply Forall_nil]. cbn.
    change (is_Some (element_find (ae_elementId body) st)). by rewrite Hel.
  - rewrite (post_element_missing _ _ _ Hfind). destruct (_ || _); exact Hok.
Qed.

End Placement.



(** A placement written by AddSpaceElement lies on the canvas of the
    space it is added to. *)
Lemma add_element_within (cuid : nat -> string) (userId : string)
    (body : AddElementData) (st : Store) (space : Space) (e : SpaceElement) :
  space_findUnique_owned (ae_spaceId body) userId st = Some space ->
  e ∈ spaceElements (snd (spaceRouter_post_element cuid userId (Some body) st)) ->
  e ∉ spaceElements st ->
  se_spaceId e = space_id space /\ within space e.
Proof.
  intros Hfind Hnew Hold. rewrite (post_element_owned cuid _ _ _ _ Hfind) in Hnew.
  destruct ((ae_x body <? 0) || (ae_y body <? 0)
            || (space_width space <? ae_x body)
            || (space_height space <? ae_y body)) eqn:Htest.
  - contradiction.
  - destruct (element_find (ae_elementId body) st); [|contradiction].
    cbn in Hnew. apply elem_of_app in Hnew. destruct Hnew as [?|Hnew]; [contradiction|].
    apply list_elem_of_singleton in Hnew. subst e. unfold within. cbn.
    apply findFirst_Some in Hfind. destruct Hfind as [_ [Hid _]].
    rewrite !orb_false_iff, !Z.ltb_ge in Htest. split; [by rewrite Hid | lia].
Qed.

(** C3. Every SpaceElement is within the canvas of its Space when it is
    created.  This holds for AddSpaceElement ([add_element_within]) and
    fails for template instantiation: CreateMap stores a placement at
    [(150, 10)] on a map of 100 by 200 without any check, and CreateSpace
    copies it into the new Space of width 100. *)
Theorem template_placement_outside_canvas :
  let st0 :=
    snd (adminRouter_post_element sample_cuid
           (Some (32, 32, true, "chair.png")) Db.empty) in
  let st1 :=
    snd (adminRouter_post_map sample_cuid
           (Some {| cm_name := "hall"; cm_dimensions := "100x200";
                    cm_thumbnail := "hall.png";
                    cm_defaultElements :=
                      [ {| me_elementId := "c0"; me_x := 150; me_y := 10 |} ] |})
           st0) in
  let result :=
    spaceRouter_post sample_cuid "alice"
      (Some {| cs_name := "my hall"; cs_dimensions := "100x200";
               cs_mapId := Some "c1" |}) st1 in
  let space := {| space_id := "c2"; space_name := "my hall";
                  space_width := 100; space_height := 200;
                  space_thumbnail := None; space_creatorId := "alice" |} in
  let row := {| se_id := "c3"; se_spaceId := "c2"; se_elementId := "c0";
                se_x := 150; se_y := 10 |} in
  fst result = json (JSpaceId "c2") /\
  space_findUnique "c2" (snd result) = Some space /\
  space_elements "c2" (snd result) = [row] /\
  ~ within space row.
Proof.
  cbv zeta. split; [by vm_compute|]. split; [by vm_compute|].
  split; [by vm_compute|]. unfold within. cbn. lia.
Qed.

(** C4. AddSpaceElement on a spaceId that resolves to no Space of the
    actor answers SpaceNotFound for every coordinate pair.  The handler
    tests the bounds first, against the missing space: with a negative
    coordinate the answer is OutOfBounds, a different failure. *)
Theorem add_element_missing_space_negative :
  let body := {| ae_spaceId := "nowhere"; ae_elementId := "e1";
                 ae_x := -1; ae_y := 0 |} in
  space_findUnique_owned "nowhere" "alice" Db.empty = None /\
  spaceRouter_post_element sample_cuid "alice" (Some body) Db.empty
  = (OutOfBounds, Db.empty) /\
  OutOfBounds <> SpaceNotFound.
Proof.
  cbv zeta. split; [reflexivity|]. split; [by vm_compute | discriminate].
Qed.

(** On a missing space the answer depends on the sign of the coordinates
    only, and nothing is persisted. *)
Lemma add_element_missing_space (cuid : nat -> string) (userId : string)
    (body : AddElementData) (st : Store) :
  space_findUnique_owned (ae_spaceId body) userId st = None ->
  snd (spaceRouter_post_element cuid userId (Some body) st) = st /\
  (ae_x body < 0 \/ ae_y body < 0 ->
   fst (spaceRouter_post_element cuid userId (Some body) st) = OutOfBounds) /\
  (0 <= ae_x body /\ 0 <= ae_y body ->
   fst (spaceRouter_post_element cuid userId (Some body) st) = SpaceNotFound).
Proof.
  intros Hfind. rewrite (post_element_missing cuid _ _ _ Hfind).
  destruct (Z.ltb_spec (ae_x body) 0), (Z.ltb_spec (ae_y body) 0);
    cbn [orb fst snd]; (split; [reflexivity|]); split; intros; (reflexivity || lia).
Qed.

(** ** Updating an element of the catalog *)

(** The acknowledgement of UpdateElement is sent over the store it
    received: the update is still pending at that moment. *)
Lemma put_element_pending (elementId imageUrl : string) (st : Store) :
  adminRouter_put_element elementId (Some imageUrl) st
  = (json (JMessage "Element updated"), st,
     [ElementUpdate elementId imageUrl]).
Proof. reflexivity. Qed.

(** C9. UpdateElement acknowledges only once the new image reference is
    persisted.  The handler does not wait for the update it builds: when
    "Element updated" is sent, element [c0] still has its old image, the
    update that would set the new one is pending, and an update of an id
    that matches no element, which the store rejects, is acknowledged all
    the same. *)
Theorem update_element_acknowledged_early :
  let st :=
    snd (adminRouter_post_element sample_cuid
           (Some (32, 32, true, "old.png")) Db.empty) in
  let '(out, atAck, pending) :=
    adminRouter_put_element "c0" (Some "new.png") st in
  out = json (JMessage "Element updated") /\
  element_imageUrl <$> element_find "c0" atAck = Some "old.png" /\
  pending = [ElementUpdate "c0" "new.png"] /\
  element_imageUrl
    <$> (run (ElementUpdate "c0" "new.png") atAck ≫= element_find "c0")
  = Some "new.png" /\
  run (ElementUpdate "missing" "new.png") st = None /\
  fst (fst (adminRouter_put_element "missing" (Some "new.png") st))
  = json (JMessage "Element updated").
Proof. cbv zeta. by vm_compute. Qed.

(** ** Deleting a placement *)

Lemma findFirst_after_delete (id : string) (st : Store) :
  spaceElements_findFirst_space id (spaceElements_delete id st) = inl None.
Proof.
  unfold spaceElements_findFirst_space, spaceElements_delete. cbn [spaceElements].
  assert (Hnone : findFirst (fun e : SpaceElement => se_id e = id)
                    (filter (fun e : SpaceElement => se_id e <> id)
                       (spaceElements st)) = None).
  { apply findFirst_None. apply list.Forall_forall.
    intros e He. apply list_elem_of_filter in He. tauto. }
  unfold set_spaceElements. cbn [spaceElements]. by rewrite Hnone.
Qed.

(** A delete request for an id that matches no placement is answered as
    an authorization failure. *)
Lemma delete_element_missing (userId id : string) (st : Store) :
  spaceElements_findFirst_space id st = inl None ->
  spaceRouter_delete_element userId (Some id) st = (Unauthorized, st).
Proof.
  intros Hfind. unfold spaceRouter_delete_element. rewrite Hfind. reflexivity.
Qed.

(** Two deletes of the same placement in a row, by the owner (whose id,
    like every generated id, is not empty): the first succeeds and removes
    the placement; the second is answered Unauthorized (403) and changes
    nothing, so there is never a second successful delete. *)
Theorem delete_element_twice (userId id : string) (st : Store)
    (row : SpaceElement) (space : Space) :
  spaceElements_findFirst_space id st = inl (Some (row, space)) ->
  space_creatorId space = userId ->
  userId <> "" ->
  let first := spaceRouter_delete_element userId (Some id) st in
  let second := spaceRouter_delete_element userId (Some id) (snd first) in
  fst first = json (JMessage "Element deleted") /\
  Forall (fun e => se_id e <> id) (spaceElements (snd first)) /\
  fst second = Unauthorized /\
  snd second = snd first.
Proof.
  intros Hfind Howner Hne first second.
  assert (Hfirst : first = (json (JMessage "Element deleted"),
                            spaceElements_delete id st)).
  { unfold first, spaceRouter_delete_element. rewrite Hfind.
    cbn [fmap option_fmap option_map compose snd truthy_opt]. rewrite Howner.
    unfold truthy. destruct (String.eqb_spec userId "") as [?|_]; [contradiction|].
    rewrite bool_decide_eq_true_2 by reflexivity. reflexivity. }
  assert (Hsecond : second = (Unauthorized, spaceElements_delete id st)).
  { unfold second. rewrite Hfirst. cbn [snd].
    apply delete_element_missing, findFirst_after_delete. }
  rewrite Hsecond, Hfirst. cbn [fst snd].
  split; [reflexivity|]. split; [|split; reflexivity].
  apply list.Forall_forall. intros e He.
  apply list_elem_of_filter in He. tauto.
Qed.

Lemma delete_element_twice_witness :
  let space := {| space_id := "s1"; space_name := "lobby";
                  space_width := 800; space_height := 600;
                  space_thumbnail := None; space_creatorId := "alice" |} in
  let row := {| se_id := "p1"; se_spaceId := "s1"; se_elementId := "e1";
                se_x := 10; se_y := 20 |} in
  let st := {| users := []; avatars := [];
               elements := [ {| element_id := "e1"; element_width := 32;
                                element_height := 32; element_static := true;
                                element_imageUrl := "chair.png" |} ];
               maps := []; spaces := [space]; spaceElements := [row];
               nextId := 0 |} in
  let first := spaceRouter_delete_element "alice" (Some "p1") st in
  let second := spaceRouter_delete_element "alice" (Some "p1") (snd first) in
  fst first = json (JMessage "Element deleted") /\
  Forall (fun e => se_id e <> "p1") (spaceElements (snd first)) /\
  fst second = Unauthorized /\
  snd second = snd first.
Proof.
  intros space row st.
  apply (delete_element_twice "alice" "p1" st row space).
  - reflexivity.
  - reflexivity.
  - discriminate.
Defined.

(** C5. Calling DeleteSpaceElement twice with the same id, by the owner,
    gives success and then NotFound, never Unauthorized for the missing
    placement.  The handler folds the missing placement into the
    authorization test: after the owner has deleted placement [p1], the
    second call is answered 403 "Unauthorized", the very response a
    stranger gets for a placement that exists, whereas the sibling route
    DeleteSpace answers a missing space with 400 "Space not found". *)
Theorem delete_element_second_call_unauthorized :
  let space := {| space_id := "s1"; space_name := "lobby";
                  space_width := 800; space_height := 600;
                  space_thumbnail := None; space_creatorId := "alice" |} in
  let chair := {| element_id := "e1"; element_width := 32;
                  element_height := 32; element_static := true;
                  element_imageUrl := "chair.png" |} in
  let row := {| se_id := "p1"; se_spaceId := "s1"; se_elementId := "e1";
                se_x := 10; se_y := 20 |} in
  let st := {| users := []; avatars := []; elements := [chair]; maps := [];
               spaces := [space]; spaceElements := [row]; nextId := 0 |} in
  let first := spaceRouter_delete_element "alice" (Some "p1") st in
  let second := spaceRouter_delete_element "alice" (Some "p1") (snd first) in
  fst first = json (JMessage "Element deleted") /\
  spaceElements (snd first) = [] /\
  fst second = Sent {| status := 403; body := JMessage "Unauthorized" |} /\
  fst second = fst (spaceRouter_delete_element "mallory" (Some "p1") st) /\
  fst (spaceRouter_delete "alice" "s2" st)
  = Sent {| status := 400; body := JMessage "Space not found" |}.
Proof.
  cbv zeta. repeat split; by vm_compute.
Qed.

(** ** Template instantiation *)

Lemma filter_none {A : Type} (P : A -> Prop) `{!forall x, Decision (P x)}
    (rows : list A) :
  Forall (fun x => ~ P x) rows -> filter P rows = [].
Proof.
  induction 1 as [|x rows Hx _ IH]; [reflexivity|].
  rewrite filter_cons. destruct (decide (P x)); [contradiction | exact IH].
Qed.


Section Instantiation.
Variable cuid : nat -> string.
Hypothesis cuid_inj : forall j k, cuid j = cuid k -> j = k.
Hypothesis cuid_nonempty : forall k, cuid k <> "".

(** The bulk insert appends one row per entry, in order, with the
    columns of the entry, and touches no other table. *)
Lemma createMany_rows (data : list (string * string * Z * Z)) (st : Store) :
  exists rows,
    spaceElements (spaceElements_createMany cuid data st)
    = (spaceElements st ++ rows)%list /\
    placement <$> rows = data /\
    spaces (spaceElements_createMany cuid data st) = spaces st /\
    maps (spaceElements_createMany cuid data st) = maps st /\
    (nextId (spaceElements_createMany cuid data st)
     = nextId st + length data)%nat.
Proof.
  revert st. induction data as [|[[[sid eid] x] y] data IH]; intros st.
  - exists []. cbn. rewrite app_nil_r. repeat split; lia.
  - cbn [spaceElements_createMany].
    destruct (IH (snd (spaceElements_insert cuid sid eid x y st)))
      as (rows & Hrows & Hdata & Hspaces & Hmaps & Hnext).
    destruct (spaceElements_insert_rows cuid sid eid x y st)
      as (Hrow & Hsp & _ & Hmp & _ & _ & Hn).
    cbv zeta in Hrow, Hsp, Hmp, Hn.
    eexists (_ :: rows). rewrite Hrows, Hrow, Hspaces, Hmaps, Hnext, Hsp, Hmp, Hn.
    rewrite <- app_assoc. cbn [app]. split; [reflexivity|].
    split; [cbn; by rewrite Hdata|]. repeat split. cbn [length]. lia.
Qed.

Lemma issued_not_next (st : Store) (id : string) :
  issued cuid st id -> id <> cuid (nextId st).
Proof.
  intros (k & Hk & ->) Heq. apply cuid_inj in Heq. lia.
Qed.


End Instantiation.

(** ** The integrity of the store is kept by every handler *)

Section Invariant.
Variable cuid : nat -> string.

Lemma issued_mono (st st' : Store) (id : string) :
  (nextId st <= nextId st')%nat -> issued cuid st id -> issued cuid st' id.
Proof. intros Hle (k & Hk & ->). exists k. split; [lia | reflexivity]. Qed.

Lemma store_ok_empty : store_ok cuid Db.empty.
Proof. split; apply Forall_nil. Qed.

(** Rows are only added, with generated ids, and ids are only handed out. *)
Lemma store_ok_grow (st st' : Store) (newSpaces : list Space)
    (newMaps : list Map) (newRows : list SpaceElement) :
  store_ok cuid st ->
  (nextId st <= nextId st')%nat ->
  maps st' = (maps st ++ newMaps)%list ->
  spaces st' = (spaces st ++ newSpaces)%list ->
  spaceElements st' = (spaceElements st ++ newRows)%list ->
  Forall (fun m => issued cuid st' (map_id m)) newMaps ->
  Forall (fun s => issued cuid st' (space_id s)) newSpaces ->
  Forall (fun e => exists s, s ∈ spaces st' /\ space_id s = se_spaceId e)
    newRows ->
  store_ok cuid st'.
Proof.
  intros [Hmaps Hspaces Hrefs] Hle Hm Hs He HnewMaps HnewSpaces HnewRows.
  split.
  - rewrite Hm. apply Forall_app. split; [|exact HnewMaps].
    eapply list.Forall_impl; [exact Hmaps|]. intros m. by apply issued_mono.
  - rewrite Hs. apply Forall_app. split; [|exact HnewSpaces].
    eapply list.Forall_impl; [exact Hspaces|]. intros s. by apply issued_mono.
  - rewrite He. apply Forall_app. split; [|exact HnewRows].
    eapply list.Forall_impl; [exact Hrefs|]. intros e (s & Hin & Hid).
    exists s. split; [|exact Hid]. rewrite Hs. apply elem_of_app. by left.
Qed.

Lemma store_ok_post_map (parsedData : option CreateMapData) (st : Store) :
  store_ok cuid st ->
  store_ok cuid (snd (adminRouter_post_map cuid parsedData st)).
Proof.
  intros Hok. unfold adminRouter_post_map.
  destruct parsedData as [data|]; [|exact Hok].
  destruct (dimension (cm_dimensions data) 0) as [w|]; [|exact Hok].
  destruct (dimension (cm_dimensions data) 1) as [h|]; [|exact Hok].
  cbn [map_create freshId snd].
  eapply (store_ok_grow st _ [] [_] []); [exact Hok | cbn; lia | reflexivity
    | cbn; by rewrite app_nil_r | cbn; by rewrite app_nil_r | | | ].
  - apply Forall_cons; [|apply Forall_nil].
    exists (nextId st). split; [cbn; lia | reflexivity].
  - apply Forall_nil.
  - apply Forall_nil.
Qed.

Lemma store_ok_post_admin_element
    (parsedData : option (Z * Z * bool * string)) (st : Store) :
  store_ok cuid st ->
  store_ok cuid (snd (adminRouter_post_element cuid parsedData st)).
Proof.
  intros Hok. unfold adminRouter_post_element.
  destruct parsedData as [[[[w h] s] url]|]; [|exact Hok].
  cbn [element_create freshId snd].
  eapply (store_ok_grow st _ [] [] []); [exact Hok | cbn; lia
    | cbn; by rewrite app_nil_r | cbn; by rewrite app_nil_r
    | cbn; by rewrite app_nil_r | | | ]; apply Forall_nil.
Qed.

Lemma store_ok_post_element (userId : string)
    (parsedData : option AddElementData) (st : Store) :
  store_ok cuid st ->
  store_ok cuid (snd (spaceRouter_post_element cuid userId parsedData st)).
Proof.
  intros Hok. destruct parsedData as [body|]; [|exact Hok].
  destruct (space_findUnique_owned (ae_spaceId body) userId st)
    as [space|] eqn:Hfind.
  - rewrite (post_element_owned cuid _ _ _ _ Hfind).
    destruct (_ || _); [exact Hok|].
    destruct (element_find (ae_elementId body) st); [|exact Hok]. cbn [snd].
    eapply (store_ok_grow st _ [] [] [_]); [exact Hok | cbn; lia
      | cbn; by rewrite app_nil_r | cbn; by rewrite app_nil_r
      | reflexivity | apply Forall_nil | apply Forall_nil | ].
    apply Forall_cons; [|apply Forall_nil].
    apply findFirst_Some in Hfind. destruct Hfind as [Hin [Hid _]].
    exists space. split; [exact Hin | exact Hid].
  - rewrite (post_element_missing cuid _ _ _ Hfind).
    destruct (_ || _); exact Hok.
Qed.

Lemma store_ok_space_post (userId : string)
    (parsedData : option CreateSpaceData) (st : Store) :
  store_ok cuid st ->
  store_ok cuid (snd (spaceRouter_post cuid userId parsedData st)).
Proof.
  intros Hok. unfold spaceRouter_post.
  destruct parsedData as [data|]; [|exact Hok].
  destruct (negb (truthy_opt (cs_mapId data))).
  - destruct (dimension (cs_dimensions data) 0) as [w|]; [|exact Hok].
    destruct (dimension (cs_dimensions data) 1) as [h|]; [|exact Hok].
    cbn [space_create freshId snd].
    eapply (store_ok_grow st _ [_] [] []); [exact Hok | cbn; lia
      | cbn; by rewrite app_nil_r | reflexivity
      | cbn; by rewrite app_nil_r | apply Forall_nil | | apply Forall_nil].
    apply Forall_cons; [|apply Forall_nil].
    exists (nextId st). split; [cbn; lia | reflexivity].
  - destruct (map_findFirst (default "" (cs_mapId data)) st) as [m|];
      [|exact Hok].
    set (space := fst (space_create cuid (cs_name data) (map_width m)
                         (map_height m) userId st)).
    set (st1 := snd (space_create cuid (cs_name data) (map_width m)
                       (map_height m) userId st)).
    set (data' := (fun e : MapElement =>
                     (space_id space, me_elementId e, me_x e, me_y e))
                    <$> map_mapElements m).
    change (store_ok cuid (spaceElements_createMany cuid data' st1)).
    destruct (createMany_rows cuid data' st1)
      as (rows & Hrows & Hdata & Hsp & Hmp & Hnext).
    eapply (store_ok_grow st _ [space] [] rows);
      [exact Hok | rewrite Hnext; cbn; lia
      | rewrite Hmp; cbn; by rewrite app_nil_r
      | rewrite Hsp; reflexivity | rewrite Hrows; reflexivity
      | apply Forall_nil | | ].
    + apply Forall_cons; [|apply Forall_nil].
      exists (nextId st). split; [rewrite Hnext; cbn; lia | reflexivity].
    + apply list.Forall_forall. intros e He. exists space. split.
      * rewrite Hsp. cbn. apply elem_of_app. right. by left.
      * assert (Hin : placement e ∈ data').
        { rewrite <- Hdata. by apply list_elem_of_fmap_2. }
        apply list_elem_of_fmap in Hin. destruct Hin as (me & Heq & _).
        unfold placement in Heq. congruence.
Qed.

Lemma store_ok_delete_element (userId : string) (parsedData : option string)
    (st : Store) :
  store_ok cuid st ->
  store_ok cuid (snd (spaceRouter_delete_element userId parsedData st)).
Proof.
  intros Hok. unfold spaceRouter_delete_element.
  destruct parsedData as [id|]; [|exact Hok].
  destruct (spaceElements_findFirst_space id st) as [found|]; [|exact Hok].
  destruct (_ || _); [exact Hok|]. cbn [snd].
  destruct Hok as [Hmaps Hspaces Hrefs]. split; [exact Hmaps | exact Hspaces|].
  cbn. apply list.Forall_forall. intros e He.
  apply list_elem_of_filter in He. destruct He as [_ He].
  rewrite list.Forall_forall in Hrefs. auto.
Qed.

Lemma store_ok_delete (userId spaceId : string) (st : Store) :
  store_ok cuid st ->
  store_ok cuid (snd (spaceRouter_delete userId spaceId st)).
Proof.
  intros Hok. unfold spaceRouter_delete.
  destruct (space_findUnique spaceId st) as [space|]; [|exact Hok].
  destruct (negb _); [exact Hok|]. cbn [snd].
  destruct Hok as [Hmaps Hspaces Hrefs].
  rewrite list.Forall_forall in Hspaces. rewrite list.Forall_forall in Hrefs.
  split; [exact Hmaps | |]; cbn; apply list.Forall_forall.
  - intros s Hs. apply list_elem_of_filter in Hs. destruct Hs as [_ Hs].
    exact (Hspaces s Hs).
  - intros e He. apply list_elem_of_filter in He. destruct He as [Hne He].
    destruct (Hrefs e He) as (s & Hs & Hid). exists s. split; [|exact Hid].
    apply list_elem_of_filter. split; [congruence | exact Hs].
Qed.

Lemma store_ok_perform (c : Call) (st : Store) :
  store_ok cuid st -> store_ok cuid (perform cuid c st).
Proof.
  intros Hok. destruct c as [p|p|u p|u p|u sid|u|u p|sid|req|q];
    cbn [perform].
  - by apply store_ok_post_admin_element.
  - by apply store_ok_post_map.
  - by apply store_ok_space_post.
  - by apply store_ok_delete_element.
  - by apply store_ok_delete.
  - exact Hok.
  - by apply store_ok_post_element.
  - unfold spaceRouter_get. destruct (space_findUnique sid st); [|exact Hok].
    destruct (mapM _ _); exact Hok.
  - exact Hok.
  - destruct q as [id url]. cbn [run].
    destruct (element_find id st); [|exact Hok].
    destruct Hok as [Hmaps Hspaces Hrefs]. by split.
Qed.

(** Every store the handlers can produce from the empty one is sound. *)
Lemma store_ok_after (history : list Call) :
  store_ok cuid (after cuid history Db.empty).
Proof.
  unfold after. generalize store_ok_empty. generalize Db.empty.
  induction history as [|c history IH]; intros st Hok; [exact Hok|].
  cbn [fold_left]. apply IH. by apply store_ok_perform.
Qed.

End Invariant.

Lemma sample_cuid_inj (j k : nat) : sample_cuid j = sample_cuid k -> j = k.
Proof.
  unfold sample_cuid. intros H.
  change (String "c" (pretty j) = String "c" (pretty k)) in H.
  injection H as H. exact (pretty_nat_inj _ _ H).
Qed.



(** ** Dimensions: printing and parsing *)

Lemma digitValue_pretty_char (d : N) :
  (d < 10)%N -> digitValue (pretty_N_char d) = Some (Z.of_N d).
Proof.
  intros Hd.
  assert (d = 0 \/ d = 1 \/ d = 2 \/ d = 3 \/ d = 4 \/ d = 5 \/ d = 6
          \/ d = 7 \/ d = 8 \/ d = 9)%N as Hcases by lia.
  repeat (destruct Hcases as [->|Hcases]; [reflexivity|]). by subst.
Qed.

Lemma leadingDigits_pretty_char (d : N) (s : string) :
  (d < 10)%N ->
  leadingDigits 10 (String (pretty_N_char d) s)
  = Z.of_N d :: leadingDigits 10 s.
Proof.
  intros Hd. cbn [leadingDigits]. rewrite digitValue_pretty_char by exact Hd.
  destruct (Z.ltb_spec (Z.of_N d) 10); [reflexivity | lia].
Qed.

(** The digits printed for [x] in front of [s] are read back as [x]. *)
Lemma leadingDigits_pretty_go (x : N) (s : string) :
  exists ds,
    leadingDigits 10 (pretty_N_go x s) = (ds ++ leadingDigits 10 s)%list /\
    (forall acc,
        fold_left (fun a d => a * 10 + d) ds acc
        = acc * 10 ^ Z.of_nat (length ds) + Z.of_N x) /\
    ((0 < x)%N -> ds <> []).
Proof.
  revert s. induction (N.lt_wf_0 x) as [x _ IH]. intros s.
  destruct (N.eq_dec x 0%N) as [->|Hx].
  - exists []. rewrite pretty_N_go_0. split; [reflexivity|].
    split; [intros acc; cbn; lia | lia].
  - assert (0 < x)%N as Hpos by lia.
    rewrite pretty_N_go_step by exact Hpos.
    destruct (IH (x `div` 10)%N (N.div_lt x 10 Hpos eq_refl)
                (String (pretty_N_char (x `mod` 10)) s))
      as (ds & Hds & Hval & _).
    exists (ds ++ [Z.of_N (x `mod` 10)])%list.
    rewrite Hds, leadingDigits_pretty_char by (apply N.mod_lt; lia).
    split; [by rewrite <- app_assoc|].
    split; [|intros _ Habs; by apply app_eq_nil in Habs as [_ ?]].
    intros acc. rewrite fold_left_app, Hval. cbn [fold_left].
    rewrite length_app. cbn [length].
    replace (Z.of_nat (length ds + 1)) with (Z.of_nat (length ds) + 1) by lia.
    rewrite Z.pow_add_r by lia.
    pose proof (N.div_mod x 10 ltac:(lia)) as Hdm.
    assert (Z.of_N x = 10 * Z.of_N (x `div` 10) + Z.of_N (x `mod` 10)) by lia.
    lia.
Qed.

(** A positive number is printed with a leading digit from 1 to 9. *)
Lemma pretty_go_head (x : N) (s : string) :
  (0 < x)%N ->
  exists d rest,
    (1 <= d < 10)%N /\ pretty_N_go x s = String (pretty_N_char d) rest.
Proof.
  revert s. induction (N.lt_wf_0 x) as [x _ IH]. intros s Hpos.
  rewrite pretty_N_go_step by exact Hpos.
  destruct (N.eq_dec (x `div` 10)%N 0%N) as [Hq|Hq].
  - rewrite Hq, pretty_N_go_0. exists (x `mod` 10)%N, s.
    split; [|reflexivity].
    pose proof (N.div_mod x 10 ltac:(lia)). pose proof (N.mod_lt x 10). lia.
  - apply IH; [by apply N.div_lt | by apply N.neq_0_lt_0].
Qed.

Ltac reduce_parseInt :=
  unfold parseInt;
  repeat match goal with
         | |- context ["-" +:+ ?s] =>
             change ("-" +:+ s) with (String "-"%char s)
         end;
  cbn [trimStart pretty_N_char];
  repeat match goal with
         | |- context [isWhiteSpace ?c] => change (isWhiteSpace c) with false
         end;
  cbv iota beta.

Lemma parseInt_leading_digit (d : N) (rest : string) :
  (1 <= d < 10)%N ->
  parseInt (String (pretty_N_char d) rest)
  = Some (digitsValue 10 (leadingDigits 10 (String (pretty_N_char d) rest)))
  /\
  parseInt ("-" +:+ String (pretty_N_char d) rest)
  = Some (- digitsValue 10 (leadingDigits 10 (String (pretty_N_char d) rest))).
Proof.
  intros Hd.
  assert (Hsome : forall ds : list Z,
             ds <> [] ->
             forall sign, match ds with
                          | [] => None
                          | z :: l => Some (sign * digitsValue 10 (z :: l))
                          end = Some (sign * digitsValue 10 ds)).
  { intros [|? ?] Hne sign; [contradiction | reflexivity]. }
  assert (Hne : forall d', (d' < 10)%N ->
                leadingDigits 10 (String (pretty_N_char d') rest) <> []).
  { intros d' Hd'. by rewrite leadingDigits_pretty_char. }
  assert (d = 1 \/ d = 2 \/ d = 3 \/ d = 4 \/ d = 5 \/ d = 6
          \/ d = 7 \/ d = 8 \/ d = 9)%N as Hcases by lia.
  assert (Hone : forall z : Z, 1 * z = z) by (intros; lia).
  assert (Hopp : forall z : Z, -1 * z = - z) by (intros; lia).
  pose proof (Hne d ltac:(lia)) as Hds.
  destruct Hcases as [->|[->|[->|[->|[->|[->|[->|[->| ->]]]]]]]];
    cbn [pretty_N_char] in Hds;
    (split; reduce_parseInt;
     [rewrite (Hsome _ Hds 1); by rewrite Hone
     |rewrite (Hsome _ Hds (-1)); by rewrite Hopp]).
Qed.

Lemma parseInt_pretty_pos (p : positive) :
  parseInt (pretty (N.pos p)) = Some (Z.pos p) /\
  parseInt ("-" +:+ pretty (N.pos p)) = Some (Z.neg p).
Proof.
  unfold pretty, pretty_N. rewrite decide_False by discriminate.
  destruct (pretty_go_head (N.pos p) "" ltac:(lia)) as (d & rest & Hd & Hhead).
  destruct (leadingDigits_pretty_go (N.pos p) "") as (ds & Hds & Hval & _).
  cbn [leadingDigits] in Hds. rewrite app_nil_r in Hds.
  assert (Hvalue : digitsValue 10 (leadingDigits 10 (pretty_N_go (N.pos p) ""))
                   = Z.pos p).
  { rewrite Hds. unfold digitsValue. rewrite Hval. lia. }
  destruct (parseInt_leading_digit d rest Hd) as [Hplus Hminus].
  rewrite <- Hhead in Hplus, Hminus. rewrite Hvalue in Hplus, Hminus.
  split; [exact Hplus | exact Hminus].
Qed.

(** Printing an integer and parsing it back gives the integer. *)
Lemma parseInt_pretty (z : Z) : parseInt (pretty z) = Some z.
Proof.
  destruct z as [|p|p]; [reflexivity| |].
  - apply (parseInt_pretty_pos p).
  - apply (parseInt_pretty_pos p).
Qed.

Lemma occurs_pretty_go (c : ascii) (x : N) (s : string) :
  (forall d, pretty_N_char d <> c) ->
  occurs c (pretty_N_go x s) = occurs c s.
Proof.
  intros Hc. revert s. induction (N.lt_wf_0 x) as [x _ IH]. intros s.
  destruct (N.eq_dec x 0%N) as [->|Hx]; [by rewrite pretty_N_go_0|].
  rewrite pretty_N_go_step by lia.
  rewrite IH by (apply N.div_lt; lia). cbn [occurs].
  destruct (Ascii.eqb_spec (pretty_N_char (x `mod` 10)) c) as [Heq|_];
    [by destruct (Hc _ Heq) | reflexivity].
Qed.

Lemma occurs_pretty (c : ascii) (z : Z) :
  (forall d, pretty_N_char d <> c) -> c <> "-"%char ->
  occurs c (pretty z) = false.
Proof.
  intros Hc Hdash.
  assert (Hpos : forall p, occurs c (pretty (N.pos p)) = false).
  { intros p. unfold pretty, pretty_N. rewrite decide_False by discriminate.
    by rewrite occurs_pretty_go. }
  destruct z as [|p|p].
  - change (occurs c (pretty 0)) with (Ascii.eqb "0" c || false).
    destruct (Ascii.eqb_spec "0" c) as [Heq|_]; [|reflexivity].
    destruct (Hc 0%N Heq).
  - apply Hpos.
  - change (pretty (Z.neg p)) with (String "-"%char (pretty (N.pos p))).
    cbn [occurs]. rewrite Hpos.
    destruct (Ascii.eqb_spec "-" c) as [Heq|_]; [by destruct Hdash | reflexivity].
Qed.

Lemma split_none (sep : ascii) (s : string) :
  occurs sep s = false -> split sep s = [s].
Proof.
  induction s as [|c s IH]; [reflexivity|].
  cbn [occurs split]. destruct (Ascii.eqb c sep); [discriminate|].
  cbn [orb]. intros Hs. by rewrite IH.
Qed.

Lemma split_app (sep : ascii) (a b : string) :
  occurs sep a = false ->
  split sep (a +:+ String sep b) = a :: split sep b.
Proof.
  induction a as [|c a IH].
  - intros _. change ("" +:+ String sep b) with (String sep b).
    cbn [split]. by rewrite Ascii.eqb_refl.
  - change (String c a +:+ String sep b) with (String c (a +:+ String sep b)).
    cbn [occurs split]. destruct (Ascii.eqb c sep); [discriminate|].
    cbn [orb]. intros Ha. by rewrite IH.
Qed.

Lemma dimension_of_format (w h : Z) :
  dimension (formatDimensions w h) 0 = Some w /\
  dimension (formatDimensions w h) 1 = Some h.
Proof.
  assert (Hx : forall z : Z, occurs "x" (pretty z) = false).
  { intros z. apply occurs_pretty; [|discriminate].
    intros d. unfold pretty_N_char. by repeat case_match. }
  unfold dimension, formatDimensions.
  change (pretty w +:+ "x" +:+ pretty h)
    with (pretty w +:+ String "x" (pretty h)).
  rewrite split_app by apply Hx. rewrite split_none by apply Hx.
  cbn [lookup list_lookup]. by rewrite !parseInt_pretty.
Qed.

(** X1. The dimensions string a space is listed with parses back to its
    width and height: [parseInt] of the two pieces of ["<w>x<h>"] gives
    [w] and [h], for all integers. *)
Theorem dimension_format (w h : Z) :
  dimension (formatDimensions w h) 0 = Some w /\
  dimension (formatDimensions w h) 1 = Some h.
Proof. apply dimension_of_format. Qed.

(** ** The identifier list: joining and splitting *)

Lemma split_join (sep : ascii) (pieces : list string) :
  pieces <> [] ->
  Forall (fun piece => occurs sep piece = false) pieces ->
  split sep (join sep pieces) = pieces.
Proof.
  intros Hne Hall. induction Hall as [|p ps Hp Hps IH]; [contradiction|].
  destruct ps as [|q ps].
  - cbn [join]. by apply split_none.
  - rewrite join_cons by discriminate. rewrite split_app by exact Hp.
    by rewrite IH.
Qed.

Lemma dropLast_snoc (s : string) (c : ascii) :
  dropLast (s +:+ String c "") = s.
Proof.
  induction s as [|c' s IH]; [reflexivity|].
  change (String c' s +:+ String c "") with (String c' (s +:+ String c "")).
  cbn [dropLast]. destruct (s +:+ String c "") eqn:E.
  - destruct s; discriminate.
  - by rewrite IH.
Qed.

(** X2. A bracketed, comma-separated list of identifiers is parsed back
    to the identifiers, in order, provided there is at least one
    identifier and none contains a comma. *)
Theorem parseIdList_join (ids : list string) :
  ids <> [] ->
  Forall (fun id => occurs "," id = false) ids ->
  parseIdList (Some ("[" +:+ join "," ids +:+ "]")) = ids.
Proof.
  intros Hne Hall. unfold parseIdList.
  change (default "[]" (Some ("[" +:+ join "," ids +:+ "]")))
    with ("[" +:+ join "," ids +:+ "]").
  rewrite slice_stripEnds. unfold stripEnds.
  change (dropFirst ("[" +:+ join "," ids +:+ "]"))
    with (join "," ids +:+ "]").
  rewrite dropLast_snoc. by apply split_join.
Qed.

Lemma parseIdList_join_witness :
  parseIdList (Some ("[" +:+ join "," ["u1"; "u2"; ""; "u4"] +:+ "]"))
  = ["u1"; "u2"; ""; "u4"].
Proof.
  apply (parseIdList_join ["u1"; "u2"; ""; "u4"]).
  - discriminate.
  - repeat constructor.
Defined.

(** ** Creating a space from dimensions *)

Section Dimensions.
Variable cuid : nat -> string.
Hypothesis cuid_inj : forall j k, cuid j = cuid k -> j = k.

(** X3. CreateSpace without a map reference (absent or empty mapId) and
    with dimensions whose two pieces parse to [w] and [h] creates an empty
    Space of that size owned by the caller: GetSpace of the returned id
    answers ["<w>x<h>"] with no elements, and no placement is written. *)
Theorem create_space_empty (userId : string) (data : CreateSpaceData)
    (w h : Z) (st : Store) :
  store_ok cuid st ->
  truthy_opt (cs_mapId data) = false ->
  dimension (cs_dimensions data) 0 = Some w ->
  dimension (cs_dimensions data) 1 = Some h ->
  let result := spaceRouter_post cuid userId (Some data) st in
  let space := {| space_id := cuid (nextId st); space_name := cs_name data;
                  space_width := w; space_height := h;
                  space_thumbnail := None; space_creatorId := userId |} in
  fst result = json (JSpaceId (space_id space)) /\
  spaces (snd result) = (spaces st ++ [space])%list /\
  spaceElements (snd result) = spaceElements st /\
  spaceRouter_get (space_id space) (snd result)
  = (json (JSpace (formatDimensions w h) []), snd result).
Proof.
  intros [_ Hspaces Hrefs] Hmap Hw Hh result space.
  assert (Hrun : result
                 = (json (JSpaceId (cuid (nextId st))),
                    snd (space_create cuid (cs_name data) w h userId st))).
  { unfold result, spaceRouter_post. by rewrite Hmap, Hw, Hh. }
  rewrite Hrun. cbn [fst snd space_id space].
  split; [reflexivity|]. split; [reflexivity|]. split; [reflexivity|].
  rewrite list.Forall_forall in Hspaces. rewrite list.Forall_forall in Hrefs.
  unfold spaceRouter_get.
  assert (Hfind : space_findUnique (cuid (nextId st))
                    (snd (space_create cuid (cs_name data) w h userId st))
                  = Some space).
  { unfold space_findUnique. cbn.
    rewrite findFirst_app_None.
    - rewrite findFirst_cons. by rewrite decide_True.
    - apply findFirst_None, list.Forall_forall. intros s Hs.
      apply (issued_not_next cuid cuid_inj). auto. }
  rewrite Hfind. cbn [space_id space].
  assert (Hnone : space_elements (cuid (nextId st))
                    (snd (space_create cuid (cs_name data) w h userId st))
                  = []).
  { unfold space_elements. cbn. apply filter_none, list.Forall_forall.
    intros e He. destruct (Hrefs e He) as (s & Hs & <-).
    apply (issued_not_next cuid cuid_inj). auto. }
  rewrite Hnone. reflexivity.
Qed.

(** X4. After CreateSpace without a map reference, ListSpaces of the
    creator shows what it showed before followed by the new space, with
    its dimensions printed as ["<w>x<h>"] and no thumbnail; the list of
    every other user is unchanged. *)
Theorem create_space_listed (userId other : string) (data : CreateSpaceData)
    (w h : Z) (st : Store) (before : list SpaceSummary) :
  truthy_opt (cs_mapId data) = false ->
  dimension (cs_dimensions data) 0 = Some w ->
  dimension (cs_dimensions data) 1 = Some h ->
  other <> userId ->
  fst (spaceRouter_get_all userId st) = json (JSpaces before) ->
  let st' := snd (spaceRouter_post cuid userId (Some data) st) in
  fst (spaceRouter_get_all userId st')
  = json (JSpaces
            (before
               ++ [ {| ss_id := cuid (nextId st); ss_name := cs_name data;
                       ss_thumbnail := None;
                       ss_dimensions := formatDimensions w h |} ])%list) /\
  fst (spaceRouter_get_all other st') = fst (spaceRouter_get_all other st).
Proof.
  intros Hmap Hw Hh Hother Hbefore st'.
  assert (Hrun : st' = snd (space_create cuid (cs_name data) w h userId st)).
  { unfold st', spaceRouter_post. by rewrite Hmap, Hw, Hh. }
  rewrite Hrun. unfold spaceRouter_get_all, space_findMany in *.
  cbn [fst snd space_create freshId set_spaces set_nextId spaces] in *.
  injection Hbefore as <-.
  rewrite !list.filter_app, !fmap_app.
  rewrite (filter_cons_True (fun s => space_creatorId s = userId))
    by reflexivity.
  rewrite (filter_cons_False (fun s => space_creatorId s = other))
    by (cbn; congruence).
  cbn. split; [reflexivity | by rewrite app_nil_r].
Qed.

End Dimensions.

Lemma create_space_empty_witness :
  let st :=
    after sample_cuid
      [ CreateSpace "bob"
          (Some {| cs_name := "den"; cs_dimensions := "10x20";
                   cs_mapId := None |}) ] Db.empty in
  let data := {| cs_name := "lobby"; cs_dimensions := "800x600";
                 cs_mapId := Some "" |} in
  let result := spaceRouter_post sample_cuid "alice" (Some data) st in
  fst result = json (JSpaceId "c1") /\
  fst (spaceRouter_get "c1" (snd result)) = json (JSpace "800x600" []).
Proof.
  intros st data result.
  destruct (create_space_empty sample_cuid sample_cuid_inj "alice" data
              800 600 st (store_ok_after sample_cuid _)
              eq_refl eq_refl eq_refl) as (Hout & _ & _ & Hget).
  split; [exact Hout|]. fold result in Hget.
  change (sample_cuid (nextId st)) with "c1" in Hget.
  cbn [space_id] in Hget. by rewrite Hget.
Defined.

Lemma create_space_listed_witness :
  let st :=
    after sample_cuid
      [ CreateSpace "bob"
          (Some {| cs_name := "den"; cs_dimensions := "10x20";
                   cs_mapId := None |}) ] Db.empty in
  let data := {| cs_name := "lobby"; cs_dimensions := "800x600";
                 cs_mapId := None |} in
  let st' := snd (spaceRouter_post sample_cuid "alice" (Some data) st) in
  fst (spaceRouter_get_all "alice" st')
  = json (JSpaces [ {| ss_id := "c1"; ss_name := "lobby";
                       ss_thumbnail := None;
                       ss_dimensions := "800x600" |} ]) /\
  fst (spaceRouter_get_all "bob" st') = fst (spaceRouter_get_all "bob" st).
Proof.
  intros st data st'.
  apply (create_space_listed sample_cuid "alice" "bob" data 800 600 st []).
  - reflexivity.
  - reflexivity.
  - reflexivity.
  - discriminate.
  - reflexivity.
Defined.

(** X5. Dimensions without an ["x"] have no second piece: the height is
    NaN, the create call is rejected, and CreateSpace (without a map
    reference) and CreateMap send no response and persist nothing. *)
Theorem dimensions_without_separator (cuid : nat -> string)
    (userId : string) (space : CreateSpaceData) (map : CreateMapData)
    (st : Store) :
  truthy_opt (cs_mapId space) = false ->
  occurs "x" (cs_dimensions space) = false ->
  occurs "x" (cm_dimensions map) = false ->
  spaceRouter_post cuid userId (Some space) st = (Thrown, st) /\
  adminRouter_post_map cuid (Some map) st = (Thrown, st).
Proof.
  intros Hmap Hs Hm.
  assert (Hheight : forall d, occurs "x" d = false -> dimension d 1 = None).
  { intros d Hd. unfold dimension. by rewrite split_none. }
  unfold spaceRouter_post, adminRouter_post_map.
  rewrite Hmap, (Hheight _ Hs), (Hheight _ Hm). cbn [negb].
  split; [destruct (dimension (cs_dimensions space) 0)
         | destruct (dimension (cm_dimensions map) 0)]; reflexivity.
Qed.

Lemma dimensions_without_separator_witness :
  spaceRouter_post sample_cuid "alice"
    (Some {| cs_name := "lobby"; cs_dimensions := "800"; cs_mapId := None |})
    Db.empty = (Thrown, Db.empty) /\
  adminRouter_post_map sample_cuid
    (Some {| cm_name := "hall"; cm_dimensions := "800*600";
             cm_thumbnail := "hall.png"; cm_defaultElements := [] |})
    Db.empty = (Thrown, Db.empty).
Proof.
  apply (dimensions_without_separator sample_cuid "alice"
           {| cs_name := "lobby"; cs_dimensions := "800"; cs_mapId := None |}
           {| cm_name := "hall"; cm_dimensions := "800*600";
              cm_thumbnail := "hall.png"; cm_defaultElements := [] |}
           Db.empty); reflexivity.
Defined.

(** ** Deleting a space, by its owner *)

Lemma findFirst_filter {A : Type} (P Q : A -> Prop)
    `{!forall x, Decision (P x)} `{!forall x, Decision (Q x)}
    (rows : list A) :
  (forall x, P x -> Q x) ->
  findFirst P (filter Q rows) = findFirst P rows.
Proof.
  intros HPQ. induction rows as [|x rows IH]; [reflexivity|].
  rewrite filter_cons. destruct (decide (Q x)) as [Hq|Hq].
  - rewrite !findFirst_cons. by destruct (decide (P x)).
  - rewrite findFirst_cons. destruct (decide (P x)) as [Hp|_]; [|exact IH].
    destruct (Hq (HPQ x Hp)).
Qed.

Lemma filter_filter_keep {A : Type} (P Q : A -> Prop)
    `{!forall x, Decision (P x)} `{!forall x, Decision (Q x)}
    (rows : list A) :
  (forall x, P x -> Q x) ->
  filter P (filter Q rows) = filter P rows.
Proof.
  intros HPQ. induction rows as [|x rows IH]; [reflexivity|].
  rewrite (filter_cons Q). destruct (decide (Q x)) as [Hq|Hq].
  - rewrite !filter_cons. destruct (decide (P x)); by rewrite IH.
  - rewrite filter_cons. destruct (decide (P x)) as [Hp|_]; [|exact IH].
    destruct (Hq (HPQ x Hp)).
Qed.

(** X6. DeleteSpace by the owner, of a space that holds no placement,
    succeeds and the space is gone: GetSpace and a second DeleteSpace of
    the same id answer "Space not found" (status 400), while every other
    space is found and read exactly as before.  (What happens to the
    placements of a deleted space is decided by the schema.) *)
Theorem delete_space_owner (userId spaceId : string) (st : Store)
    (space : Space) :
  space_findUnique spaceId st = Some space ->
  space_creatorId space = userId ->
  space_elements spaceId st = [] ->
  let result := spaceRouter_delete userId spaceId st in
  fst result = json (JMessage "Space deleted") /\
  spaceRouter_get spaceId (snd result) = (SpaceNotFound, snd result) /\
  spaceRouter_delete userId spaceId (snd result)
  = (SpaceNotFound, snd result) /\
  forall other,
    other <> spaceId ->
    space_findUnique other (snd result) = space_findUnique other st /\
    fst (spaceRouter_get other (snd result)) = fst (spaceRouter_get other st).
Proof.
  intros Hfind Howner _ result.
  assert (Hrun : result = (json (JMessage "Space deleted"),
                           space_delete spaceId st)).
  { unfold result, spaceRouter_delete. rewrite Hfind.
    by rewrite bool_decide_eq_true_2. }
  rewrite Hrun. cbn [fst snd].
  assert (Hgone : space_findUnique spaceId (space_delete spaceId st) = None).
  { unfold space_findUnique. cbn. apply findFirst_None, list.Forall_forall.
    intros s Hs. apply list_elem_of_filter in Hs. tauto. }
  split; [reflexivity|].
  split; [unfold spaceRouter_get; by rewrite Hgone|].
  split; [unfold spaceRouter_delete; by rewrite Hgone|].
  intros other Hother.
  assert (Hsame : space_findUnique other (space_delete spaceId st)
                  = space_findUnique other st).
  { unfold space_findUnique. cbn. apply findFirst_filter. congruence. }
  split; [exact Hsame|].
  unfold spaceRouter_get. rewrite Hsame.
  destruct (space_findUnique other st) as [s|] eqn:Hs; [|reflexivity].
  apply findFirst_Some in Hs. destruct Hs as [_ Hid].
  assert (Hrows : space_elements (space_id s) (space_delete spaceId st)
                  = space_elements (space_id s) st).
  { unfold space_elements. cbn. apply filter_filter_keep. congruence. }
  rewrite Hrows.
  change (fun e : SpaceElement =>
            (fun el : Element =>
               {| pe_id := se_id e; pe_element := el;
                  pe_x := se_x e; pe_y := se_y e |})
              <$> element_find (se_elementId e) (space_delete spaceId st))
    with (fun e : SpaceElement =>
            (fun el : Element =>
               {| pe_id := se_id e; pe_element := el;
                  pe_x := se_x e; pe_y := se_y e |})
              <$> element_find (se_elementId e) st).
  by destruct (mapM _ _).
Qed.

Lemma delete_space_owner_witness :
  let st :=
    after sample_cuid
      [ CreateSpace "alice"
          (Some {| cs_name := "lobby"; cs_dimensions := "800x600";
                   cs_mapId := None |});
        CreateSpace "bob"
          (Some {| cs_name := "den"; cs_dimensions := "10x20";
                   cs_mapId := None |}) ] Db.empty in
  let result := spaceRouter_delete "alice" "c0" st in
  fst result = json (JMessage "Space deleted") /\
  fst (spaceRouter_get "c0" (snd result)) = SpaceNotFound /\
  fst (spaceRouter_get "c1" (snd result)) = json (JSpace "10x20" []).
Proof.
  intros st result.
  destruct (delete_space_owner "alice" "c0" st
              {| space_id := "c0"; space_name := "lobby";
                 space_width := 800; space_height := 600;
                 space_thumbnail := None; space_creatorId := "alice" |}
              eq_refl eq_refl eq_refl) as (Hout & Hget & _ & Hother).
  fold result in Hget, Hother.
  split; [exact Hout|]. split; [by rewrite Hget|].
  destruct (Hother "c1" ltac:(discriminate)) as [_ Hsame].
  rewrite Hsame. reflexivity.
Defined.

(** ** What the placement routes can and cannot do *)

(** X7. DeleteSpaceElement either answers "Element deleted", and then the
    actor is the creator of the space of the placement with that id and
    exactly the rows with that id are removed, or it changes nothing and
    answers Unauthorized (or sends nothing, for a placement without a
    space).  It never touches another table. *)
Theorem delete_element_cases (userId id : string) (st : Store) :
  let result := spaceRouter_delete_element userId (Some id) st in
  (fst result = json (JMessage "Element deleted") /\
   (exists row space,
       spaceElements_findFirst_space id st = inl (Some (row, space)) /\
       space_creatorId space = userId) /\
   (forall e, e ∈ spaceElements (snd result)
              <-> e ∈ spaceElements st /\ se_id e <> id) /\
   spaces (snd result) = spaces st /\ maps (snd result) = maps st /\
   elements (snd result) = elements st /\ users (snd result) = users st /\
   avatars (snd result) = avatars st)
  \/ (snd result = st /\ (fst result = Unauthorized \/ fst result = Thrown)).
Proof.
  intros result. unfold result, spaceRouter_delete_element.
  destruct (spaceElements_findFirst_space id st) as [[[row space]|]|[]] eqn:Hfind.
  - cbn [fmap option_fmap option_map compose snd truthy_opt].
    destruct (negb (truthy (space_creatorId space))) eqn:Htruthy;
      [right; by auto|].
    cbn [orb].
    destruct (decide (Some (space_creatorId space) = Some userId)) as [Heq|Hne].
    + rewrite bool_decide_eq_true_2 by exact Heq. cbn [negb fst snd].
      left. split; [reflexivity|]. split.
      { exists row, space. split; [reflexivity | congruence]. }
      split; [|by repeat split].
      intros e. cbn. rewrite list_elem_of_filter. tauto.
    + rewrite bool_decide_eq_false_2 by exact Hne. right. by auto.
  - right. by auto.
  - right. by auto.
Qed.

Section PlacementCases.
Variable cuid : nat -> string.

(** X8. AddSpaceElement either answers "Element added", and then the
    actor owns the space, the point is within its canvas (border
    included), the element is in the catalog, and exactly one row, with
    the requested columns, is appended while every other table is
    untouched; or it changes nothing, and it answers OutOfBounds or
    SpaceNotFound, or sends nothing because the elementId matches no
    element and the create call is rejected. *)
Theorem add_element_cases (userId : string) (body : AddElementData)
    (st : Store) :
  let result := spaceRouter_post_element cuid userId (Some body) st in
  (fst result = json (JMessage "Element added") /\
   (exists space,
       space ∈ spaces st /\ space_id space = ae_spaceId body /\
       space_creatorId space = userId /\
       0 <= ae_x body <= space_width space /\
       0 <= ae_y body <= space_height space) /\
   is_Some (element_find (ae_elementId body) st) /\
   spaceElements (snd result)
   = (spaceElements st
        ++ [ {| se_id := cuid (nextId st); se_spaceId := ae_spaceId body;
                se_elementId := ae_elementId body;
                se_x := ae_x body; se_y := ae_y body |} ])%list /\
   spaces (snd result) = spaces st /\ maps (snd result) = maps st /\
   elements (snd result) = elements st /\ users (snd result) = users st /\
   avatars (snd result) = avatars st)
  \/ (snd result = st
      /\ (fst result = OutOfBounds \/ fst result = SpaceNotFound
          \/ (fst result = Thrown
              /\ element_find (ae_elementId body) st = None))).
Proof.
  intros result. unfold result.
  destruct (space_findUnique_owned (ae_spaceId body) userId st)
    as [space|] eqn:Hfind.
  - rewrite (post_element_owned cuid _ _ _ _ Hfind).
    destruct ((ae_x body <? 0) || (ae_y body <? 0)
              || (space_width space <? ae_x body)
              || (space_height space <? ae_y body)) eqn:Htest;
      [right; by auto|].
    destruct (element_find (ae_elementId body) st) as [el|] eqn:Hel;
      [|right; by auto].
    left. split; [reflexivity|]. split; [|split; [by eexists | by repeat split]].
    exists space. apply findFirst_Some in Hfind.
    destruct Hfind as [Hin [Hid Hown]].
    rewrite !orb_false_iff, !Z.ltb_ge in Htest.
    repeat split; try assumption; lia.
  - rewrite (post_element_missing cuid _ _ _ Hfind).
    right. destruct (_ || _); by auto.
Qed.

End PlacementCases.

(** ** Bulk metadata and the avatar of a user *)

(** The entries of the bulk answer, one by one. *)
Lemma bulk_entries (req : Request) (st : Store) :
  exists avatars,
    userRouter_get_metadata_bulk req st = (json (JAvatars avatars), st) /\
    forall id image,
      (id, image) ∈ avatars
      <-> exists u,
            u ∈ users st /\ user_id u = id /\
            id ∈ parseIdList (req_query_ids req) /\
            image = avatar_imageUrl
                      <$> (user_avatarId u ≫= fun a => avatar_find a st).
Proof.
  eexists. split; [reflexivity|]. intros id image.
  unfold user_findMany_in. rewrite <- list_fmap_compose. split.
  - intros Hin. apply list_elem_of_fmap in Hin. destruct Hin as (u & Heq & Hu).
    apply list_elem_of_filter in Hu. destruct Hu as [Hid Hu].
    cbn in Heq. injection Heq as -> ->. by exists u.
  - intros (u & Hu & <- & Hid & ->).
    apply list_elem_of_fmap. exists u. split; [reflexivity|].
    by apply list_elem_of_filter.
Qed.

(** X9. GetBulkUserMetadata answers with one entry per stored user whose
    id is among the parsed identifiers, and with nothing else: identifiers
    that match no user are skipped without an error, and a user without
    an avatar (or whose avatar is missing) has an absent image, not a
    missing entry. *)
Theorem bulk_metadata_entries (req : Request) (st : Store) :
  exists avatars,
    userRouter_get_metadata_bulk req st = (json (JAvatars avatars), st) /\
    forall id image,
      (id, image) ∈ avatars
      <-> exists u,
            u ∈ users st /\ user_id u = id /\
            id ∈ parseIdList (req_query_ids req) /\
            image = avatar_imageUrl
                      <$> (user_avatarId u ≫= fun a => avatar_find a st).
Proof. apply bulk_entries. Qed.

(** X10. UpdateUserAvatar for a stored user and a stored avatar answers
    "Metadata updated", and from then on every bulk-metadata entry of
    that user carries the image of that avatar, while the entries of the
    other users are what they were.  For an id that matches no user the
    rejected update is caught: status 400 and no change. *)
Theorem update_avatar_then_bulk (userId avatarId : string) (st : Store)
    (u : UserRow) (a : Avatar) :
  u ∈ users st ->
  user_id u = userId ->
  avatar_find avatarId st = Some a ->
  let result := userRouter_post_metadata userId (Some avatarId) st in
  fst result = json (JMessage "Metadata updated") /\
  (forall req avatars,
      fst (userRouter_get_metadata_bulk req (snd result))
      = json (JAvatars avatars) ->
      (userId ∈ parseIdList (req_query_ids req) ->
       (userId, Some (avatar_imageUrl a)) ∈ avatars) /\
      (forall image, (userId, image) ∈ avatars ->
                     image = Some (avatar_imageUrl a)) /\
      (forall id image before,
          id <> userId ->
          fst (userRouter_get_metadata_bulk req st)
          = json (JAvatars before) ->
          (id, image) ∈ avatars <-> (id, image) ∈ before)) /\
  (forall stranger,
      Forall (fun v => user_id v <> stranger) (users st) ->
      userRouter_post_metadata stranger (Some avatarId) st
      = (fail 400 "Internal server error", st)).
Proof.
  intros Hu Hid Hav result.
  set (upd := fun v : UserRow =>
                if decide (user_id v = userId)
                then {| user_id := user_id v;
                        user_username := user_username v;
                        user_password := user_password v;
                        user_role := user_role v;
                        user_avatarId := Some avatarId |}
                else v).
  assert (Hrun : result = (json (JMessage "Metadata updated"),
                           set_users st (upd <$> users st))).
  { unfold result, userRouter_post_metadata, user_update_avatarId.
    destruct (findFirst_is_Some (fun v => user_id v = userId) (users st) u
                Hu Hid) as [v Hv].
    by rewrite Hv. }
  assert (Hupd_id : forall v, user_id (upd v) = user_id v).
  { intros v. unfold upd. by destruct (decide _). }
  split; [by rewrite Hrun|]. split.
  - intros req avatars Hbulk. rewrite Hrun in Hbulk. cbn [snd] in Hbulk.
    destruct (bulk_entries req (set_users st (upd <$> users st)))
      as (avatars' & Heq & Hchar).
    rewrite Heq in Hbulk. cbn [fst] in Hbulk. injection Hbulk as ->.
    change (users (set_users st (upd <$> users st))) with (upd <$> users st)
      in Hchar.
    assert (Hfind : forall id, avatar_find id (set_users st (upd <$> users st))
                               = avatar_find id st) by reflexivity.
    split; [|split].
    + intros Hreq. apply Hchar. exists (upd u).
      split; [by apply list_elem_of_fmap_2|].
      split; [by rewrite Hupd_id|]. split; [exact Hreq|].
      unfold upd. rewrite decide_True by exact Hid. cbn.
      by rewrite Hfind, Hav.
    + intros image Himage. apply Hchar in Himage.
      destruct Himage as (v' & Hv' & Hvid & _ & ->).
      apply list_elem_of_fmap in Hv'. destruct Hv' as (v & -> & _).
      rewrite Hupd_id in Hvid. unfold upd. rewrite decide_True by exact Hvid.
      cbn. by rewrite Hfind, Hav.
    + intros id image before Hne Hbefore.
      destruct (bulk_entries req st) as (before' & Heq' & Hchar').
      rewrite Heq' in Hbefore. cbn [fst] in Hbefore. injection Hbefore as ->.
      rewrite Hchar, Hchar'. split.
      * intros (v' & Hv' & Hvid & Hreq & ->).
        apply list_elem_of_fmap in Hv'. destruct Hv' as (v & -> & Hv).
        rewrite Hupd_id in Hvid. exists v.
        split; [exact Hv|]. split; [exact Hvid|]. split; [exact Hreq|].
        unfold upd. rewrite decide_False by congruence. reflexivity.
      * intros (v & Hv & Hvid & Hreq & ->). exists (upd v).
        split; [by apply list_elem_of_fmap_2|].
        split; [by rewrite Hupd_id|]. split; [exact Hreq|].
        unfold upd. rewrite decide_False by congruence. reflexivity.
  - intros stranger Hnone. unfold userRouter_post_metadata, user_update_avatarId.
    assert (Hfind : findFirst (fun v : UserRow => user_id v = stranger)
                      (users st) = None) by (by apply findFirst_None).
    by rewrite Hfind.
Qed.

Lemma update_avatar_then_bulk_witness :
  let ann := {| user_id := "u1"; user_username := "ann";
                user_password := "h"; user_role := User;
                user_avatarId := None |} in
  let fox := {| avatar_id := "a1"; avatar_name := "fox";
                avatar_imageUrl := "fox.png" |} in
  let st := {| users := [ann]; avatars := [fox]; elements := []; maps := [];
               spaces := []; spaceElements := []; nextId := 0 |} in
  let result := userRouter_post_metadata "u1" (Some "a1") st in
  fst result = json (JMessage "Metadata updated") /\
  fst (userRouter_get_metadata_bulk
         {| req_authorization := None; req_query_ids := Some "[u1]" |}
         (snd result))
  = json (JAvatars [("u1", Some "fox.png")]) /\
  userRouter_post_metadata "u2" (Some "a1") st
  = (fail 400 "Internal server error", st).
Proof.
  intros ann fox st result.
  destruct (update_avatar_then_bulk "u1" "a1" st ann fox) as (Hout & _ & Hmiss).
  - by left.
  - reflexivity.
  - reflexivity.
  - split; [exact Hout|]. split; [by vm_compute|].
    apply Hmiss. by repeat constructor.
Defined.

(** ** Accounts *)

Section AccountProps.
Variable cuid : nat -> string.
Variable compare : string -> string -> bool.
Variable sign : string -> Role -> string.

Lemma signup_fresh (hashedPassword : string) (data : SignupData)
    (st : Store) :
  user_findUnique_username (su_username data) st = None ->
  router_post_signup cuid hashedPassword (Some data) st
  = ({| code := 200; payload := BUserId (cuid (nextId st)) |},
     set_users (set_nextId st (S (nextId st)))
       (users st
          ++ [ {| user_id := cuid (nextId st);
                  user_username := su_username data;
                  user_password := hashedPassword;
                  user_role := if String.eqb (su_type data) "admin"
                               then Admin else User;
                  user_avatarId := None |} ])).
Proof.
  intros Hfree. unfold router_post_signup, user_create. by rewrite Hfree.
Qed.

Lemma signup_taken (hashedPassword : string) (data : SignupData)
    (st : Store) (u : UserRow) :
  user_findUnique_username (su_username data) st = Some u ->
  router_post_signup cuid hashedPassword (Some data) st
  = ({| code := 400; payload := BMessage "User already exists" |}, st).
Proof.
  intros Htaken. unfold router_post_signup, user_create. by rewrite Htaken.
Qed.

(** X11. Two signups in a row with the same username: whatever the
    passwords and account types, and whether or not the first succeeded,
    the second is answered 400 "User already exists" and changes
    nothing. *)
Theorem signup_twice (hashed1 hashed2 : string) (first second : SignupData)
    (st : Store) :
  su_username first = su_username second ->
  let st1 := snd (router_post_signup cuid hashed1 (Some first) st) in
  router_post_signup cuid hashed2 (Some second) st1
  = ({| code := 400; payload := BMessage "User already exists" |}, st1).
Proof.
  intros Hname st1.
  destruct (user_findUnique_username (su_username first) st) as [u|] eqn:Hfind.
  - assert (Hst1 : st1 = st).
    { unfold st1. by rewrite (signup_taken _ _ _ u Hfind). }
    rewrite Hst1. apply (signup_taken _ _ _ u). by rewrite <- Hname.
  - unfold st1. rewrite (signup_fresh _ _ _ Hfind). cbn [snd].
    match goal with
    | |- router_post_signup _ _ _ ?s = _ =>
        destruct (user_findUnique_username (su_username second) s)
          as [v|] eqn:Hfind'
    end.
    + by apply (signup_taken _ _ _ v).
    + unfold user_findUnique_username in Hfind'. cbn in Hfind'.
      apply findFirst_None in Hfind'. rewrite list.Forall_forall in Hfind'.
      exfalso. eapply Hfind'; [apply elem_of_app; right; by left|].
      cbn. exact Hname.
Qed.

(** X12. After a successful signup (the username was free), signin with
    that username answers a token signed for the new user's id and for the
    role of the requested type (["admin"] gives Admin, anything else User)
    when the password is accepted against the stored hash, and 403
    "Invalid password" otherwise. *)
Theorem signup_then_signin (hashedPassword password : string)
    (data : SignupData) (st : Store) :
  user_findUnique_username (su_username data) st = None ->
  let created := router_post_signup cuid hashedPassword (Some data) st in
  let answer :=
    router_post_signin compare sign
      (Some {| si_username := su_username data; si_password := password |})
      (snd created) in
  fst created = {| code := 200; payload := BUserId (cuid (nextId st)) |} /\
  snd answer = snd created /\
  fst answer
  = if compare password hashedPassword
    then {| code := 200;
            payload :=
              BToken (sign (cuid (nextId st))
                        (if String.eqb (su_type data) "admin"
                         then Admin else User)) |}
    else {| code := 403; payload := BMessage "Invalid password" |}.
Proof.
  intros Hfree created answer.
  unfold answer, created. rewrite (signup_fresh _ _ _ Hfree). cbn [fst snd].
  split; [reflexivity|].
  unfold router_post_signin, user_findUnique_username. cbn [si_username users set_users].
  rewrite findFirst_app_None by exact Hfree.
  rewrite findFirst_cons. rewrite decide_True by reflexivity.
  cbn [user_password si_password user_id user_role].
  destruct (compare password hashedPassword); by split.
Qed.

(** X13. Signin hands out a token only for a stored user with the given
    username whose stored hash accepts the given password, and the token
    is signed for that user's id and role; signin never changes the
    store. *)
Theorem signin_token_sound (data : SigninData) (st : Store)
    (token : string) :
  fst (router_post_signin compare sign (Some data) st)
  = {| code := 200; payload := BToken token |} ->
  snd (router_post_signin compare sign (Some data) st) = st /\
  exists u,
    u ∈ users st /\ user_username u = si_username data /\
    compare (si_password data) (user_password u) = true /\
    token = sign (user_id u) (user_role u).
Proof.
  unfold router_post_signin.
  destruct (user_findUnique_username (si_username data) st) as [u|] eqn:Hfind;
    [|discriminate].
  destruct (compare (si_password data) (user_password u)) eqn:Hcmp;
    [|discriminate].
  cbn [negb fst snd]. intros [= <-]. split; [reflexivity|].
  apply findFirst_Some in Hfind. destruct Hfind as [Hin Hname].
  by exists u.
Qed.

End AccountProps.

Lemma signup_twice_witness :
  let ann := {| su_username := "ann"; su_password := "pw1";
                su_type := "user" |} in
  let again := {| su_username := "ann"; su_password := "pw2";
                  su_type := "admin" |} in
  let st1 := snd (router_post_signup sample_cuid "h1" (Some ann) Db.empty) in
  users st1 = [ {| user_id := "c0"; user_username := "ann";
                   user_password := "h1"; user_role := User;
                   user_avatarId := None |} ] /\
  router_post_signup sample_cuid "h2" (Some again) st1
  = ({| code := 400; payload := BMessage "User already exists" |}, st1).
Proof.
  intros ann again st1. split; [reflexivity|].
  apply (signup_twice sample_cuid "h1" "h2" ann again Db.empty). reflexivity.
Defined.

Lemma signup_then_signin_witness :
  let check := fun password hash : string => String.eqb ("#" +:+ password) hash in
  let token := fun (id : string) (role : Role) =>
                 match role with Admin => "admin:" | User => "user:" end +:+ id in
  let data := {| su_username := "ann"; su_password := "pw";
                 su_type := "admin" |} in
  let st1 := snd (router_post_signup sample_cuid "#pw" (Some data) Db.empty) in
  fst (router_post_signin check token
         (Some {| si_username := "ann"; si_password := "pw" |}) st1)
  = {| code := 200; payload := BToken "admin:c0" |} /\
  fst (router_post_signin check token
         (Some {| si_username := "ann"; si_password := "guess" |}) st1)
  = {| code := 403; payload := BMessage "Invalid password" |}.
Proof.
  intros check token data st1.
  destruct (signup_then_signin sample_cuid check token "#pw" "pw" data
              Db.empty eq_refl) as (_ & _ & Hgood).
  destruct (signup_then_signin sample_cuid check token "#pw" "guess" data
              Db.empty eq_refl) as (_ & _ & Hbad).
  split; [exact Hgood | exact Hbad].
Defined.


Lemma signin_token_sound_witness :
  let check := fun password hash : string => String.eqb ("#" +:+ password) hash in
  let token := fun (id : string) (role : Role) =>
                 match role with Admin => "admin:" | User => "user:" end +:+ id in
  let data := {| si_username := "ann"; si_password := "pw" |} in
  let st := {| users := [ {| user_id := "c0"; user_username := "ann";
                             user_password := "#pw"; user_role := User;
                             user_avatarId := None |} ];
               avatars := []; elements := []; maps := []; spaces := [];
               spaceElements := []; nextId := 1 |} in
  snd (router_post_signin check token (Some data) st) = st /\
  exists u,
    u ∈ users st /\ user_username u = "ann" /\
    check "pw" (user_password u) = true /\
    "user:c0" = token (user_id u) (user_role u).
Proof.
  intros check token data st.
  apply (signin_token_sound check token data st "user:c0"). reflexivity.
Defined.

(** ** Keys: generated, and never shared by two rows *)

Section Keys.
Variable cuid : nat -> string.
Hypothesis cuid_inj : forall j k, cuid j = cuid k -> j = k.

Lemma keys_mono (n n' : nat) (ids : list string) :
  (n <= n')%nat -> keys cuid n ids -> keys cuid n' ids.
Proof.
  intros Hle [Hall Hnd]. split; [|exact Hnd].
  eapply list.Forall_impl; [exact Hall|].
  intros id (k & Hk & ->). exists k. split; [lia | reflexivity].
Qed.

(** New rows take the ids [cuid a], ..., [cuid (a + len - 1)]. *)
Lemma keys_append (n n' a len : nat) (ids : list string) :
  keys cuid n ids -> (n <= a)%nat -> (a + len <= n')%nat ->
  keys cuid n' (ids ++ (cuid <$> seq a len)).
Proof.
  intros [Hall Hnd] Hna Han. split.
  - apply Forall_app. split.
    + eapply list.Forall_impl; [exact Hall|].
      intros id (k & Hk & ->). exists k. split; [lia | reflexivity].
    + apply list.Forall_forall. intros id Hid.
      apply list_elem_of_fmap in Hid. destruct Hid as (k & -> & Hk).
      apply elem_of_seq in Hk. exists k. split; [lia | reflexivity].
  - apply list.NoDup_app. split; [exact Hnd|]. split.
    + intros id Hold Hnew. rewrite list.Forall_forall in Hall.
      destruct (Hall id Hold) as (k & Hk & ->).
      apply list_elem_of_fmap in Hnew. destruct Hnew as (k' & Heq & Hk').
      apply cuid_inj in Heq. apply elem_of_seq in Hk'. lia.
    + apply NoDup_fmap_2; [|apply NoDup_seq].
      intros j k. apply cuid_inj.
Qed.

Lemma keys_snoc (n n' : nat) (ids : list string) :
  keys cuid n ids -> (n < n')%nat -> keys cuid n' (ids ++ [cuid n]).
Proof.
  intros Hk Hlt. apply (keys_append n n' n 1 ids Hk); lia.
Qed.

Lemma keys_filter {A : Type} (f : A -> string) (P : A -> Prop)
    `{!forall x, Decision (P x)} (n : nat) (rows : list A) :
  keys cuid n (f <$> rows) -> keys cuid n (f <$> filter P rows).
Proof.
  intros [Hall Hnd].
  assert (Hsub : (f <$> filter P rows) `sublist_of` (f <$> rows)).
  { apply fmap_sublist, sublist_filter. }
  split; [|by eapply sublist_NoDup].
  apply list.Forall_forall. intros id Hid.
  rewrite list.Forall_forall in Hall. apply Hall.
  by eapply elem_of_sublist.
Qed.

(** The rows written by the bulk insert take consecutive fresh ids, and
    nothing else moves. *)
Lemma createMany_keys (data : list (string * string * Z * Z)) (st : Store) :
  let st' := spaceElements_createMany cuid data st in
  se_id <$> spaceElements st'
  = ((se_id <$> spaceElements st) ++ (cuid <$> seq (nextId st) (length data)))%list /\
  nextId st' = (nextId st + length data)%nat /\
  users st' = users st /\ avatars st' = avatars st /\
  elements st' = elements st /\ maps st' = maps st /\ spaces st' = spaces st.
Proof.
  revert st. induction data as [|[[[sid eid] x] y] data IH]; intros st.
  - cbn. rewrite app_nil_r. repeat split; lia.
  - cbn [spaceElements_createMany length].
    destruct (IH (snd (spaceElements_insert cuid sid eid x y st)))
      as (Hids & Hnext & Hu & Ha & He & Hm & Hs).
    cbv zeta. rewrite Hids, Hnext, Hu, Ha, He, Hm, Hs. cbn.
    rewrite fmap_app, <- app_assoc. cbn. repeat split. lia.
Qed.

Ltac keep_keys :=
  first [ eassumption
        | eapply keys_mono; [|eassumption]; cbn; lia ].

Lemma keys_ok_call (c : Call) (st : Store) :
  keys_ok cuid st -> keys_ok cuid (perform cuid c st).
Proof.
  intros Hok. pose proof Hok as [Hu Ha He Hm Hs Hp Hn].
  destruct c as [p|p|u p|u p|u sid|u|u p|sid|req|q]; cbn [perform].
  - unfold adminRouter_post_element. destruct p as [[[[w h] s] url]|]; [|exact Hok].
    split; cbn; try keep_keys.
    rewrite fmap_app. apply keys_snoc; [assumption | lia].
  - unfold adminRouter_post_map. destruct p as [data|]; [|exact Hok].
    destruct (dimension (cm_dimensions data) 0); [|exact Hok].
    destruct (dimension (cm_dimensions data) 1); [|exact Hok].
    split; cbn; try keep_keys.
    rewrite fmap_app. apply keys_snoc; [assumption | lia].
  - unfold spaceRouter_post. destruct p as [data|]; [|exact Hok].
    destruct (negb (truthy_opt (cs_mapId data))).
    + destruct (dimension (cs_dimensions data) 0); [|exact Hok].
      destruct (dimension (cs_dimensions data) 1); [|exact Hok].
      split; cbn; try keep_keys.
      rewrite fmap_app. apply keys_snoc; [assumption | lia].
    + destruct (map_findFirst (default "" (cs_mapId data)) st) as [m|];
        [|exact Hok].
      set (st1 := snd (space_create cuid (cs_name data) (map_width m)
                         (map_height m) u st)).
      set (data' := (fun e : MapElement =>
                       (cuid (nextId st), me_elementId e, me_x e, me_y e))
                      <$> map_mapElements m).
      change (keys_ok cuid (spaceElements_createMany cuid data' st1)).
      destruct (createMany_keys data' st1)
        as (Hids & Hnext & Hu' & Ha' & He' & Hm' & Hs').
      cbv zeta in Hids, Hnext, Hu', Ha', He', Hm', Hs'.
      split; rewrite ?Hids, ?Hnext, ?Hu', ?Ha', ?He', ?Hm', ?Hs'; cbn;
        try keep_keys.
      * rewrite fmap_app. apply keys_snoc; [exact Hs | lia].
      * apply (keys_append (nextId st)); [exact Hp | lia | lia].
  - unfold spaceRouter_delete_element. destruct p as [id|]; [|exact Hok].
    destruct (spaceElements_findFirst_space id st); [|exact Hok].
    destruct (_ || _); [exact Hok|].
    split; cbn; try keep_keys. by apply keys_filter.
  - unfold spaceRouter_delete.
    destruct (space_findUnique sid st); [|exact Hok].
    destruct (negb _); [exact Hok|].
    split; cbn; try keep_keys; by apply keys_filter.
  - exact Hok.
  - destruct p as [body|]; [|exact Hok].
    destruct (space_findUnique_owned (ae_spaceId body) u st) as [space|] eqn:Hf.
    + rewrite (post_element_owned cuid _ _ _ _ Hf).
      destruct (_ || _); [exact Hok|].
      destruct (element_find (ae_elementId body) st); [|exact Hok].
      split; cbn; try keep_keys.
      rewrite fmap_app. apply keys_snoc; [assumption | lia].
    + rewrite (post_element_missing cuid _ _ _ Hf).
      destruct (_ || _); exact Hok.
  - unfold spaceRouter_get. destruct (space_findUnique sid st); [|exact Hok].
    destruct (mapM _ _); exact Hok.
  - exact Hok.
  - destruct q as [id url]. cbn [run].
    destruct (element_find id st); [|exact Hok].
    split; cbn; try keep_keys.
    rewrite <- list_fmap_compose.
    erewrite list_fmap_ext; [exact He|].
    intros i el _. cbn. by destruct (decide _).
Qed.

Lemma keys_ok_op (op : Op) (st : Store) :
  keys_ok cuid st -> keys_ok cuid (applyOp cuid op st).
Proof.
  intros Hok. pose proof Hok as [Hu Ha He Hm Hs Hp Hn].
  destruct op as [c|p|u p|hashed p]; cbn [applyOp].
  - by apply keys_ok_call.
  - unfold adminRouter_post_avatar. destruct p as [[name url]|]; [|exact Hok].
    split; cbn; try keep_keys.
    rewrite fmap_app. apply keys_snoc; [assumption | lia].
  - unfold userRouter_post_metadata. destruct p as [avatarId|]; [|exact Hok].
    unfold user_update_avatarId.
    destruct (findFirst _ _); [|exact Hok].
    split; cbn; try keep_keys.
    + rewrite <- list_fmap_compose.
      erewrite list_fmap_ext; [exact Hu|].
      intros i v _. cbn. by destruct (decide _).
    + rewrite <- list_fmap_compose.
      erewrite list_fmap_ext; [exact Hn|].
      intros i v _. cbn. by destruct (decide _).
  - destruct p as [data|]; [|exact Hok].
    destruct (user_findUnique_username (su_username data) st) as [v|] eqn:Hf.
    + by rewrite (signup_taken cuid _ _ _ v Hf).
    + rewrite (signup_fresh cuid _ _ _ Hf).
      split; cbn; try keep_keys.
      * rewrite fmap_app. apply keys_snoc; [assumption | lia].
      * rewrite fmap_app. apply list.NoDup_app. split; [exact Hn|].
        split; [|apply NoDup_singleton].
        intros name Hold Hnew. apply list_elem_of_singleton in Hnew. subst name.
        apply list_elem_of_fmap in Hold. destruct Hold as (v & Hname & Hv).
        apply findFirst_None in Hf. rewrite list.Forall_forall in Hf.
        by apply (Hf v Hv).
Qed.

Lemma keys_ok_fold (ops : list Op) :
  keys_ok cuid (replay cuid ops Db.empty).
Proof.
  unfold replay.
  assert (Hempty : keys_ok cuid Db.empty).
  { split; cbn; try (split; [apply Forall_nil | apply NoDup_nil_2]).
    apply NoDup_nil_2. }
  revert Hempty. generalize Db.empty.
  induction ops as [|op ops IH]; intros st Hok; [exact Hok|].
  cbn [fold_left]. apply IH. by apply keys_ok_op.
Qed.

(** X14. In every store the routes can produce from the empty one, each
    id was generated by the store and no two rows of a table share an id,
    and no two users share a username. *)
Theorem keys_ok_replay (ops : list Op) :
  keys_ok cuid (replay cuid ops Db.empty).
Proof. apply keys_ok_fold. Qed.

Lemma findFirst_key {A : Type} (f : A -> string) (rows : list A) (x : A) :
  NoDup (f <$> rows) -> x ∈ rows ->
  findFirst (fun y => f y = f x) rows = Some x.
Proof.
  induction rows as [|y rows IH]; intros Hnd Hx; [by apply elem_of_nil in Hx|].
  rewrite fmap_cons in Hnd. apply list.NoDup_cons in Hnd.
  destruct Hnd as [Hy Hnd].
  rewrite findFirst_cons. apply elem_of_cons in Hx.
  destruct (decide (f y = f x)) as [Heq|Hne].
  - destruct Hx as [->|Hx]; [reflexivity|].
    exfalso. apply Hy. rewrite Heq. by apply list_elem_of_fmap_2.
  - destruct Hx as [->|Hx]; [contradiction | by apply IH].
Qed.

(** X15. In every store the routes can produce, a lookup by id finds the
    very row that is stored under that id: a space, a map, an element of
    the catalog, and a user by its username. *)
Theorem lookup_stored (ops : list Op) :
  let st := replay cuid ops Db.empty in
  (forall s, s ∈ spaces st -> space_findUnique (space_id s) st = Some s) /\
  (forall m, m ∈ maps st -> map_findFirst (map_id m) st = Some m) /\
  (forall e, e ∈ elements st -> element_find (element_id e) st = Some e) /\
  (forall u, u ∈ users st ->
             user_findUnique_username (user_username u) st = Some u).
Proof.
  intros st. destruct (keys_ok_fold ops) as [_ _ [_ He] [_ Hm] [_ Hs] _ Hn].
  fold st in He, Hm, Hs, Hn.
  repeat split; intros x Hx.
  - by apply (findFirst_key space_id).
  - by apply (findFirst_key map_id).
  - by apply (findFirst_key element_id).
  - by apply (findFirst_key user_username).
Qed.

End Keys.

Lemma keys_ok_replay_witness :
  keys_ok sample_cuid
    (replay sample_cuid
       [ Signup "h" (Some {| su_username := "ann"; su_password := "pw";
                             su_type := "user" |});
         CreateAvatar (Some ("fox", "fox.png"));
         SpaceOp (CreateElement (Some (32, 32, true, "chair.png")));
         SpaceOp (CreateSpace "c0"
                    (Some {| cs_name := "lobby"; cs_dimensions := "800x600";
                             cs_mapId := None |}));
         SpaceOp (AddSpaceElement "c0"
                    (Some {| ae_spaceId := "c3"; ae_elementId := "c2";
                             ae_x := 1; ae_y := 2 |}));
         UpdateUserAvatar "c0" (Some "c1");
         SpaceOp (DeleteSpaceElement "c0" (Some "c4")) ]
       Db.empty).
Proof.
  apply (keys_ok_replay sample_cuid sample_cuid_inj).
Defined.

Lemma lookup_stored_witness :
  let st :=
    replay sample_cuid
      [ Signup "h" (Some {| su_username := "ann"; su_password := "pw";
                            su_type := "user" |});
        SpaceOp (CreateSpace "c0"
                   (Some {| cs_name := "lobby"; cs_dimensions := "800x600";
                            cs_mapId := None |})) ]
      Db.empty in
  let lobby := {| space_id := "c1"; space_name := "lobby";
                  space_width := 800; space_height := 600;
                  space_thumbnail := None; space_creatorId := "c0" |} in
  lobby ∈ spaces st /\ space_findUnique "c1" st = Some lobby.
Proof.
  intros st lobby.
  destruct (lookup_stored sample_cuid sample_cuid_inj
              [ Signup "h" (Some {| su_username := "ann"; su_password := "pw";
                                    su_type := "user" |});
                SpaceOp (CreateSpace "c0"
                           (Some {| cs_name := "lobby";
                                    cs_dimensions := "800x600";
                                    cs_mapId := None |})) ])
    as (Hspaces & _).
  assert (Hin : lobby ∈ spaces st) by (by left).
  split; [exact Hin | exact (Hspaces lobby Hin)].
Defined.

(** ** Edge cases of the routes *)

Lemma stripEnds_short (raw : string) :
  (String.length raw <= 2)%nat -> stripEnds raw = "".
Proof.
  destruct raw as [|a [|b [|c raw]]]; cbn; try reflexivity. lia.
Qed.

(** X16. An absent [ids] parameter, or a raw string of at most two
    characters such as ["[]"], parses to the single empty identifier; no
    user with a non-empty id matches it, so GetBulkUserMetadata answers
    the empty list. *)
Theorem bulk_metadata_empty_list (req : Request) (st : Store) :
  (String.length (default "[]" (req_query_ids req)) <= 2)%nat ->
  Forall (fun u => user_id u <> "") (users st) ->
  parseIdList (req_query_ids req) = [""] /\
  userRouter_get_metadata_bulk req st = (json (JAvatars []), st).
Proof.
  intros Hshort Hids.
  assert (Hparse : parseIdList (req_query_ids req) = [""]).
  { unfold parseIdList. rewrite slice_stripEnds.
    by rewrite stripEnds_short. }
  split; [exact Hparse|].
  unfold userRouter_get_metadata_bulk, user_findMany_in. rewrite Hparse.
  rewrite filter_none; [reflexivity|].
  eapply list.Forall_impl; [exact Hids|].
  intros u Hu Hin. apply list_elem_of_singleton in Hin. contradiction.
Qed.

Lemma bulk_metadata_empty_list_witness :
  let st := {| users := [ {| user_id := "u1"; user_username := "ann";
                             user_password := "h"; user_role := User;
                             user_avatarId := None |} ];
               avatars := []; elements := []; maps := []; spaces := [];
               spaceElements := []; nextId := 0 |} in
  userRouter_get_metadata_bulk
    {| req_authorization := None; req_query_ids := None |} st
  = (json (JAvatars []), st) /\
  userRouter_get_metadata_bulk
    {| req_authorization := None; req_query_ids := Some "u1" |} st
  = (json (JAvatars []), st).
Proof.
  intros st. split.
  - apply (bulk_metadata_empty_list
             {| req_authorization := None; req_query_ids := None |} st).
    + cbn. lia.
    + by repeat constructor.
  - apply (bulk_metadata_empty_list
             {| req_authorization := None; req_query_ids := Some "u1" |} st).
    + cbn. lia.
    + by repeat constructor.
Defined.

(** ** Maps *)

Lemma placements_same (placements : list MapElement) :
  (fun e : MapElement =>
     {| me_elementId := me_elementId e; me_x := me_x e; me_y := me_y e |})
    <$> placements = placements.
Proof.
  induction placements as [|[eid x y] placements IH]; [reflexivity|].
  cbn. by rewrite IH.
Qed.

Section Maps.
Variable cuid : nat -> string.
Hypothesis cuid_inj : forall j k, cuid j = cuid k -> j = k.

(** X17. CreateMap with dimensions whose two pieces parse to [w] and [h]
    stores a map of that size with the given name, thumbnail and
    placements, in order and unchecked against the canvas, and answers
    its id: a lookup of that id finds this map, and the lookup of every
    other id is unchanged. *)
Theorem create_map_stored (data : CreateMapData) (w h : Z) (st : Store) :
  store_ok cuid st ->
  dimension (cm_dimensions data) 0 = Some w ->
  dimension (cm_dimensions data) 1 = Some h ->
  let result := adminRouter_post_map cuid (Some data) st in
  let map := {| map_id := cuid (nextId st); map_name := cm_name data;
                map_width := w; map_height := h;
                map_thumbnail := cm_thumbnail data;
                map_mapElements := cm_defaultElements data |} in
  fst result = json (JId (map_id map)) /\
  map_findFirst (map_id map) (snd result) = Some map /\
  (forall other, other <> map_id map ->
                 map_findFirst other (snd result) = map_findFirst other st) /\
  spaces (snd result) = spaces st /\
  spaceElements (snd result) = spaceElements st.
Proof.
  intros [Hmaps _ _] Hw Hh result map.
  assert (Hrun : result
                 = (json (JId (cuid (nextId st))),
                    set_maps (set_nextId st (S (nextId st)))
                      (maps st ++ [map]))).
  { unfold result, adminRouter_post_map. rewrite Hw, Hh.
    cbn [map_create freshId]. by rewrite placements_same. }
  rewrite Hrun. cbn [fst snd map_id map].
  split; [reflexivity|].
  rewrite list.Forall_forall in Hmaps.
  unfold map_findFirst. cbn [maps set_maps].
  split; [|split; [|by split]].
  - rewrite findFirst_app_None.
    + rewrite findFirst_cons. by rewrite decide_True.
    + apply findFirst_None, list.Forall_forall. intros m Hm.
      apply (issued_not_next cuid cuid_inj). auto.
  - intros other Hother.
    destruct (findFirst (fun m : Map => map_id m = other) (maps st))
      as [m|] eqn:Hfind.
    + by apply findFirst_app_Some.
    + rewrite findFirst_app_None by exact Hfind.
      rewrite findFirst_cons. rewrite decide_False; [reflexivity|].
      cbn. congruence.
Qed.

End Maps.

Lemma create_map_stored_witness :
  let data := {| cm_name := "hall"; cm_dimensions := "100x200";
                 cm_thumbnail := "hall.png";
                 cm_defaultElements :=
                   [ {| me_elementId := "c0"; me_x := 150; me_y := 10 |} ] |} in
  let st := after sample_cuid
              [ CreateElement (Some (32, 32, true, "chair.png")) ] Db.empty in
  let result := adminRouter_post_map sample_cuid (Some data) st in
  fst result = json (JId "c1") /\
  map_findFirst "c1" (snd result)
  = Some {| map_id := "c1"; map_name := "hall"; map_width := 100;
            map_height := 200; map_thumbnail := "hall.png";
            map_mapElements :=
              [ {| me_elementId := "c0"; me_x := 150; me_y := 10 |} ] |}.
Proof.
  intros data st result.
  destruct (create_map_stored sample_cuid sample_cuid_inj data 100 200 st
              (store_ok_after sample_cuid _) eq_refl eq_refl)
    as (Hout & Hfind & _).
  split; [exact Hout | exact Hfind].
Defined.

(** ** Reading spaces *)

Lemma Forall2_with_left {A B : Type} (P : A -> Prop) (R : A -> B -> Prop)
    (l : list A) (k : list B) :
  Forall P l -> Forall2 R l k -> Forall2 (fun x y => P x /\ R x y) l k.
Proof.
  intros HP HR. induction HR as [|x y l k Hxy _ IH]; [constructor|].
  inversion HP; subst. constructor; [by split | by apply IH].
Qed.

(** X18. When GetSpace answers with a space, the space with that id
    exists, the dimensions string is its width and height printed as
    ["<w>x<h>"], which parse back to them, and there is exactly one entry
    per placement of that space, in order, with the placement's id and
    coordinates and the catalog element it refers to. *)
Theorem get_space_views (spaceId : string) (st : Store)
    (dimensions : string) (views : list PlacedElement) :
  fst (spaceRouter_get spaceId st) = json (JSpace dimensions views) ->
  exists space,
    space_findUnique spaceId st = Some space /\
    space_id space = spaceId /\
    dimensions = formatDimensions (space_width space) (space_height space) /\
    dimension dimensions 0 = Some (space_width space) /\
    dimension dimensions 1 = Some (space_height space) /\
    Forall2
      (fun e view =>
         (e ∈ spaceElements st /\ se_spaceId e = spaceId) /\
         pe_id view = se_id e /\ pe_x view = se_x e /\ pe_y view = se_y e /\
         element_find (se_elementId e) st = Some (pe_element view))
      (space_elements spaceId st) views.
Proof.
  unfold spaceRouter_get.
  destruct (space_findUnique spaceId st) as [space|] eqn:Hfind;
    [|discriminate].
  pose proof (findFirst_Some _ _ _ Hfind) as [_ Hid]. cbn in Hid.
  destruct (mapM _ _) as [views'|] eqn:Hviews; [|discriminate].
  cbn [fst]. intros [= <- <-]. exists space.
  destruct (dimension_of_format (space_width space) (space_height space))
    as [Hw Hh].
  split; [reflexivity|]. split; [exact Hid|]. split; [reflexivity|].
  split; [exact Hw|]. split; [exact Hh|].
  apply mapM_Some in Hviews. rewrite Hid in Hviews.
  apply Forall2_with_left.
  - apply list.Forall_forall. intros e He.
    apply list_elem_of_filter in He. tauto.
  - eapply list.Forall2_impl; [exact Hviews|].
    intros e view Hview. cbn in Hview.
    destruct (element_find (se_elementId e) st) as [el|]; [|discriminate].
    cbn in Hview. injection Hview as <-. by repeat split.
Qed.

Lemma get_space_views_witness :
  let st :=
    after sample_cuid
      [ CreateElement (Some (32, 32, true, "chair.png"));
        CreateSpace "alice"
          (Some {| cs_name := "lobby"; cs_dimensions := "800x600";
                   cs_mapId := None |});
        AddSpaceElement "alice"
          (Some {| ae_spaceId := "c1"; ae_elementId := "c0";
                   ae_x := 5; ae_y := 7 |}) ] Db.empty in
  let chair := {| element_id := "c0"; element_width := 32;
                  element_height := 32; element_static := true;
                  element_imageUrl := "chair.png" |} in
  exists space,
    space_findUnique "c1" st = Some space /\
    space_id space = "c1" /\
    "800x600" = formatDimensions (space_width space) (space_height space) /\
    dimension "800x600" 0 = Some (space_width space) /\
    dimension "800x600" 1 = Some (space_height space) /\
    Forall2
      (fun e view =>
         (e ∈ spaceElements st /\ se_spaceId e = "c1") /\
         pe_id view = se_id e /\ pe_x view = se_x e /\ pe_y view = se_y e /\
         element_find (se_elementId e) st = Some (pe_element view))
      (space_elements "c1" st)
      [ {| pe_id := "c2"; pe_element := chair; pe_x := 5; pe_y := 7 |} ].
Proof.
  intros st chair.
  apply (get_space_views "c1" st "800x600"
           [ {| pe_id := "c2"; pe_element := chair; pe_x := 5; pe_y := 7 |} ]).
  vm_compute. reflexivity.
Defined.

(** X19. ListSpaces answers with exactly the spaces created by the
    caller, in order: one entry per such space, with its id, name and
    thumbnail, and with dimensions that parse back to its width and
    height; a space of another creator is never listed. *)
Theorem list_spaces_own (userId : string) (st : Store) :
  exists summaries,
    spaceRouter_get_all userId st = (json (JSpaces summaries), st) /\
    Forall2
      (fun s summary =>
         (s ∈ spaces st /\ space_creatorId s = userId) /\
         ss_id summary = space_id s /\ ss_name summary = space_name s /\
         ss_thumbnail summary = space_thumbnail s /\
         dimension (ss_dimensions summary) 0 = Some (space_width s) /\
         dimension (ss_dimensions summary) 1 = Some (space_height s))
      (filter (fun s => space_creatorId s = userId) (spaces st))
      summaries.
Proof.
  eexists. split; [reflexivity|]. unfold space_findMany.
  apply Forall2_fmap_r. apply Forall2_with_left.
  - apply list.Forall_forall. intros s Hs.
    apply list_elem_of_filter in Hs. tauto.
  - apply Forall_Forall2_diag, list.Forall_forall. intros s _. cbn.
    destruct (dimension_of_format (space_width s) (space_height s)).
    by repeat split.
Qed.

(** ** What the space routes leave alone *)

(** X20. No request of the space routes and no bulk-metadata read changes
    the map templates, the element catalog, the users or the avatars:
    only CreateElement, CreateMap and a completed element update write
    the first two. *)
Theorem space_routes_keep_catalog (cuid : nat -> string) (c : Call)
    (st : Store) :
  match c with
  | CreateElement _ | CreateMap _ | Complete _ => False
  | _ => True
  end ->
  maps (perform cuid c st) = maps st /\
  elements (perform cuid c st) = elements st /\
  users (perform cuid c st) = users st /\
  avatars (perform cuid c st) = avatars st.
Proof.
  intros Hc. destruct c as [p|p|u p|u p|u sid|u|u p|sid|req|q];
    try contradiction; cbn [perform].
  - unfold spaceRouter_post. destruct p as [data|]; [|by auto].
    destruct (negb (truthy_opt (cs_mapId data))).
    + destruct (dimension (cs_dimensions data) 0); [|by auto].
      destruct (dimension (cs_dimensions data) 1); by auto.
    + destruct (map_findFirst (default "" (cs_mapId data)) st) as [m|];
        [|by auto].
      set (st1 := snd (space_create cuid (cs_name data) (map_width m)
                         (map_height m) u st)).
      set (data' := (fun e : MapElement =>
                       (cuid (nextId st), me_elementId e, me_x e, me_y e))
                      <$> map_mapElements m).
      change (maps (spaceElements_createMany cuid data' st1) = maps st /\
              elements (spaceElements_createMany cuid data' st1) = elements st /\
              users (spaceElements_createMany cuid data' st1) = users st /\
              avatars (spaceElements_createMany cuid data' st1) = avatars st).
      destruct (createMany_keys cuid data' st1)
        as (_ & _ & Hu & Ha & He & Hm & _).
      cbv zeta in Hu, Ha, He, Hm. by rewrite Hu, Ha, He, Hm.
  - unfold spaceRouter_delete_element. destruct p as [id|]; [|by auto].
    destruct (spaceElements_findFirst_space id st); [|by auto].
    destruct (_ || _); by auto.
  - unfold spaceRouter_delete. destruct (space_findUnique sid st); [|by auto].
    destruct (negb _); by auto.
  - by auto.
  - destruct p as [body|]; [|by auto].
    destruct (space_findUnique_owned (ae_spaceId body) u st) as [s|] eqn:Hf.
    + rewrite (post_element_owned cuid _ _ _ _ Hf).
      destruct (_ || _); [by auto|].
      destruct (element_find (ae_elementId body) st); by auto.
    + rewrite (post_element_missing cuid _ _ _ Hf). destruct (_ || _); by auto.
  - unfold spaceRouter_get. destruct (space_findUnique sid st); [|by auto].
    destruct (mapM _ _); by auto.
  - by auto.
Qed.

Lemma space_routes_keep_catalog_witness :
  let st :=
    after sample_cuid
      [ CreateElement (Some (32, 32, true, "chair.png"));
        CreateMap (Some {| cm_name := "hall"; cm_dimensions := "800x600";
                           cm_thumbnail := "hall.png";
                           cm_defaultElements :=
                             [ {| me_elementId := "c0"; me_x := 1; me_y := 2 |} ] |}) ]
      Db.empty in
  let c := CreateSpace "alice"
             (Some {| cs_name := "my hall"; cs_dimensions := "800x600";
                      cs_mapId := Some "c1" |}) in
  maps (perform sample_cuid c st) = maps st /\
  elements (perform sample_cuid c st) = elements st /\
  users (perform sample_cuid c st) = users st /\
  avatars (perform sample_cuid c st) = avatars st.
Proof.
  intros st c. apply (space_routes_keep_catalog sample_cuid c st). exact I.
Defined.

(** X21. DeleteSpace answers "Space deleted", or changes the store, only
    when the actor is the creator of the space with that id; and a space
    with another id is never removed. *)
Theorem delete_space_only_by_creator (userId spaceId : string) (st : Store) :
  let result := spaceRouter_delete userId spaceId st in
  (fst result = json (JMessage "Space deleted") \/ snd result <> st ->
   exists space,
     space_findUnique spaceId st = Some space /\
     space_creatorId space = userId) /\
  (forall s, s ∈ spaces st -> space_id s <> spaceId ->
             s ∈ spaces (snd result)).
Proof.
  intros result. unfold result, spaceRouter_delete.
  destruct (space_findUnique spaceId st) as [space|] eqn:Hfind.
  - destruct (decide (space_creatorId space = userId)) as [Heq|Hne].
    + rewrite bool_decide_eq_true_2 by exact Heq. cbn [negb fst snd].
      split; [intros _; by exists space|].
      intros s Hs Hid. cbn. by apply list_elem_of_filter.
    + rewrite bool_decide_eq_false_2 by exact Hne. cbn [negb fst snd].
      split; [|by auto]. intros [Habs|Habs]; [discriminate | contradiction].
  - cbn [fst snd]. split; [|by auto].
    intros [Habs|Habs]; [discriminate | contradiction].
Qed.
